(** * Document ingestion, chunking and search: a shallow embedding of
      [file_manager.py] (with the search route of [app.py]).

    Python strings are sequences of Unicode code points; they are modelled
    as lists of code points ([N]).  Python integers are unbounded and are
    modelled as [Z].  Python exceptions are modelled by an error type and a
    [result] sum; [try]/[except] blocks are written out as matches on it. *)

From Stdlib Require Import Strings.String Strings.Ascii.
From Stdlib Require Import Numbers.DecimalString Numbers.DecimalNat.
From Stdlib Require Import List ZArith NArith Lia Bool Arith.
Import ListNotations.

Set Implicit Arguments.
Set Warnings "-abstract-large-number".

(* ------------------------------------------------------------------ *)
(** * Python strings                                                   *)
(* ------------------------------------------------------------------ *)

Module PyStr.

Definition char := N.
Definition str := list char.

(** An ASCII literal as a Python string. *)
Definition lit (s : string) : str :=
  map N_of_ascii (list_ascii_of_string s).

(** [a == b] *)
Fixpoint eqb (a b : str) : bool :=
  match a, b with
  | [], [] => true
  | c :: a', d :: b' => (c =? d)%N && eqb a' b'
  | _, _ => false
  end.

(** [str.isspace] on one code point: the Unicode white space that
    [str.split()] and [str.strip()] use. *)
Definition isspace (c : char) : bool :=
  ((9 <=? c) && (c <=? 13) || (28 <=? c) && (c <=? 32)
   || (c =? 133) || (c =? 160) || (c =? 5760)
   || (8192 <=? c) && (c <=? 8202)
   || (c =? 8232) || (c =? 8233) || (c =? 8239) || (c =? 8287)
   || (c =? 12288))%N.

(** [s.split()]: maximal runs of non-space characters, in order. *)
Fixpoint split (s : str) : list str :=
  match s with
  | [] => []
  | c :: s' =>
      if isspace c then split s'
      else match s' with
           | [] => [[c]]
           | d :: _ =>
               if isspace d then [c] :: split s'
               else match split s' with
                    | w :: ws => (c :: w) :: ws
                    | [] => [[c]]
                    end
           end
  end.

(** [sep.join(ws)]. *)
Fixpoint join (sep : str) (ws : list str) : str :=
  match ws with
  | [] => []
  | w :: ws' =>
      match ws' with
      | [] => w
      | _ :: _ => w ++ sep ++ join sep ws'
      end
  end.

(** [s.replace(old, new)] for a one-character [old]. *)
Definition replace (old : char) (new : str) (s : str) : str :=
  flat_map (fun c => if (c =? old)%N then new else [c]) s.

Fixpoint lstrip (s : str) : str :=
  match s with
  | [] => []
  | c :: s' => if isspace c then lstrip s' else s
  end.

(** [s.strip()]. *)
Definition strip (s : str) : str := rev (lstrip (rev (lstrip s))).

(** [c in s] for a one-character [c]. *)
Definition contains (c : char) (s : str) : bool :=
  existsb (fun d => (d =? c)%N) s.

(** [str(n)] for a non-negative integer. *)
Definition of_nat (n : nat) : str :=
  lit (NilEmpty.string_of_uint (Nat.to_uint n)).

(** Index normalisation of a slice bound. *)
Definition slice_bound (len i : Z) : Z :=
  if (i <? 0)%Z then Z.max 0 (i + len) else Z.min i len.

(** [l[i:j]] with Python's treatment of negative and out-of-range bounds. *)
Definition slice {A : Type} (l : list A) (i j : Z) : list A :=
  let n := Z.of_nat (length l) in
  let lo := slice_bound n i in
  let hi := slice_bound n j in
  firstn (Z.to_nat (hi - lo)) (skipn (Z.to_nat lo) l).

(** [l[:j]] *)
Definition prefix {A : Type} (l : list A) (j : Z) : list A := slice l 0 j.

End PyStr.

Import PyStr.

(* ------------------------------------------------------------------ *)
(** * Exceptions                                                       *)
(* ------------------------------------------------------------------ *)

(** The exceptions the modelled code can meet.  All of them are subclasses
    of [Exception]; [UnicodeDecodeError] is the only one a handler of the
    source singles out. *)
Inductive exn : Type :=
| ValueError
| ZeroDivisionError
| FileNotFoundError
| UnicodeDecodeError
| IntegrityError
| OperationalError
| OverflowError
| LibraryError (name : string).

Inductive result (A : Type) : Type :=
| Ok (a : A)
| Raise (e : exn).
Arguments Ok {A} a.
Arguments Raise {A} e.

Definition bind {A B : Type} (r : result A) (k : A -> result B) : result B :=
  match r with
  | Ok a => k a
  | Raise e => Raise e
  end.

Notation "x <- c ;; k" := (bind c (fun x => k))
  (at level 61, c at next level, right associativity).

Definition is_UnicodeDecodeError (e : exn) : bool :=
  match e with UnicodeDecodeError => true | _ => false end.

(** [range(start, stop, step)] as the list it iterates over. *)
Definition py_range (start stop step : Z) : result (list Z) :=
  if (step =? 0)%Z then Raise ValueError
  else
    let count :=
      if (0 <? step)%Z then ((stop - start + step - 1) / step)%Z
      else ((start - stop - step - 1) / (- step))%Z in
    Ok (map (fun k => (start + Z.of_nat k * step)%Z) (seq 0 (Z.to_nat count))).

(* ------------------------------------------------------------------ *)
(** * DocumentChunker                                                  *)
(* ------------------------------------------------------------------ *)

Record chunk : Type := {
  chunk_id : str;
  content : str;
  chunk_index : Z;
  total_chunks : Z
}.

Record DocumentChunker : Type := {
  max_chunk_size : Z;
  overlap_size : Z
}.

(** [DocumentChunker()] with the constructor's default arguments. *)
Definition default_chunker : DocumentChunker :=
  {| max_chunk_size := 4000; overlap_size := 200 |}.

Definition len {A : Type} (l : list A) : Z := Z.of_nat (length l).

(** The body of the [for i in range(...)] loop of [chunk_text], with its
    [break]; [chunks] is the list built so far. *)
Fixpoint chunk_loop (self : DocumentChunker) (words : list str)
    (document_id : str) (total : Z) (idx : list Z) (chunks : list chunk)
    : list chunk :=
  match idx with
  | [] => chunks
  | i :: rest =>
      let chunk_words := slice words i (i + max_chunk_size self) in
      let chunk_text := join (lit " ") chunk_words in
      let chunks' :=
        chunks ++
        [ {| chunk_id := document_id ++ lit "_chunk_" ++ of_nat (length chunks);
             content := chunk_text;
             chunk_index := len chunks;
             total_chunks := total |} ] in
      if (i + max_chunk_size self >=? len words)%Z then chunks'
      else chunk_loop self words document_id total rest chunks'
  end.

Definition chunk_text (self : DocumentChunker) (text : str) (document_id : str)
    : result (list chunk) :=
  let words := split text in
  if (len words <=? max_chunk_size self)%Z then
    Ok [ {| chunk_id := document_id ++ lit "_chunk_0";
            content := text;
            chunk_index := 0;
            total_chunks := 1 |} ]
  else if (max_chunk_size self =? 0)%Z then Raise ZeroDivisionError
  else
    let total :=
      ((len words + max_chunk_size self - 1) / max_chunk_size self)%Z in
    idx <- py_range 0 (len words) (max_chunk_size self - overlap_size self) ;;
    Ok (chunk_loop self words document_id total idx []).

(* ------------------------------------------------------------------ *)
(** * The environment                                                  *)
(* ------------------------------------------------------------------ *)

Definition path := str.
Definition bytes := list N.

(** The file system: the bytes of each regular file. *)
Definition filesystem := path -> option bytes.

Definition fs_write (fs : filesystem) (p : path) (data : bytes) : filesystem :=
  fun q => if PyStr.eqb q p then Some data else fs q.

(** A spreadsheet as [openpyxl] presents it: sheets in workbook order, each
    a name and its rows; a cell is [None] or the text [str(cell)]. *)
Definition workbook := list (str * list (list (option str))).

(** Rows of the three tables of [init_database]. *)
Record file_row : Type := {
  f_id : str;
  f_filename : str;
  f_original_name : str;
  f_file_path : str;
  f_file_type : str;
  f_file_size : Z;
  f_content_hash : str;
  f_category : option str;
  f_tags : str;
  f_description : option str;
  f_processed : bool;
  f_chunk_count : Z
}.

Record chunk_row : Type := {
  c_id : str;
  c_file_id : str;
  c_chunk_index : Z;
  c_content : str;
  c_content_preview : str
}.

Record fts_row : Type := {
  s_file_id : str;
  s_filename : str;
  s_content : str;
  s_category : str;
  s_tags : str
}.

Record db : Type := {
  files : list file_row;
  chunks : list chunk_row;
  file_search : list fts_row
}.

Definition empty_db : db := {| files := []; chunks := []; file_search := [] |}.

(** A row of the seven-column result of the two search statements. *)
Record search_row : Type := {
  r_id : str;
  r_filename : str;
  r_file_type : str;
  r_category : option str;
  r_description : option str;
  r_chunk_count : Z;
  r_snippet : option str
}.

(** What the code calls but does not define: the path and hashing helpers
    of the standard library, the text codecs, the document parsers and the
    two search statements run by SQLite. *)
Record World : Type := {
  path_name : path -> str;
  path_suffix : path -> str;
  path_join : path -> str -> path;
  str_lower : str -> str;
  md5_hex : str -> str;
  md5_bytes : bytes -> str;
  json_dumps : list str -> str;
  decode_utf8 : bytes -> option str;
  decode_cp1251 : bytes -> option str;
  PdfReader_pages : bytes -> result (list (result str));
  docx_paragraphs : bytes -> result (list str);
  load_workbook : bytes -> result workbook;
  soup_get_text : str -> result str;
  markdown_markdown : str -> result str;
  fts_insert_ok : fts_row -> bool;
  fts_select : db -> str -> option str -> option str -> result (list search_row);
  like_select : db -> str -> option str -> option str -> result (list search_row)
}.

Definition try_except {A : Type} (body : result A) (handler : exn -> result A)
    : result A :=
  match body with
  | Ok a => Ok a
  | Raise e => handler e
  end.

Definition nl : str := [10%N].

(* ------------------------------------------------------------------ *)
(** * DocumentProcessor                                                *)
(* ------------------------------------------------------------------ *)

Inductive encoding : Type := Utf8 | Cp1251.

(** [open(p, 'rb').read()] *)
Definition open_read_bytes (fs : filesystem) (p : path) : result bytes :=
  match fs p with
  | Some b => Ok b
  | None => Raise FileNotFoundError
  end.

(** [open(p, 'r', encoding=enc).read()] *)
Definition open_read_text (E : World) (enc : encoding) (fs : filesystem)
    (p : path) : result str :=
  b <- open_read_bytes fs p ;;
  match (match enc with Utf8 => decode_utf8 E b | Cp1251 => decode_cp1251 E b end) with
  | Some s => Ok s
  | None => Raise UnicodeDecodeError
  end.

Fixpoint pdf_pages_text (pages : list (result str)) (text : str) : result str :=
  match pages with
  | [] => Ok text
  | page :: rest =>
      t <- page ;;
      pdf_pages_text rest (text ++ t ++ nl)
  end.

Definition extract_text_from_pdf (E : World) (fs : filesystem) (file_path : path)
    : result str :=
  try_except
    (b <- open_read_bytes fs file_path ;;
     pages <- PdfReader_pages E b ;;
     pdf_pages_text pages [])
    (fun _ => Ok []).

Definition extract_text_from_docx (E : World) (fs : filesystem) (file_path : path)
    : result str :=
  try_except
    (b <- open_read_bytes fs file_path ;;
     paragraphs <- docx_paragraphs E b ;;
     Ok (fold_left (fun text p => text ++ p ++ nl) paragraphs []))
    (fun _ => Ok []).

Definition excel_row_text (row : list (option str)) : str :=
  join (lit " | ")
       (map (fun cell => match cell with Some s => s | None => [] end) row).

Definition excel_sheet_text (text : str) (sheet : str * list (list (option str)))
    : str :=
  let text := text ++ lit "Sheet: " ++ fst sheet ++ nl in
  let text :=
    fold_left
      (fun text row =>
         let row_text := excel_row_text row in
         match strip row_text with
         | [] => text
         | _ :: _ => text ++ row_text ++ nl
         end)
      (snd sheet) text in
  text ++ nl.

Definition extract_text_from_excel (E : World) (fs : filesystem) (file_path : path)
    : result str :=
  try_except
    (b <- open_read_bytes fs file_path ;;
     wb <- load_workbook E b ;;
     Ok (fold_left excel_sheet_text wb []))
    (fun _ => Ok []).

Definition extract_text_from_txt (E : World) (fs : filesystem) (file_path : path)
    : result str :=
  match open_read_text E Utf8 fs file_path with
  | Ok s => Ok s
  | Raise e =>
      if is_UnicodeDecodeError e then
        try_except (open_read_text E Cp1251 fs file_path) (fun _ => Ok [])
      else Raise e
  end.

Definition extract_text_from_html (E : World) (fs : filesystem) (file_path : path)
    : result str :=
  try_except
    (s <- open_read_text E Utf8 fs file_path ;;
     soup_get_text E s)
    (fun _ => Ok []).

Definition extract_text_from_md (E : World) (fs : filesystem) (file_path : path)
    : result str :=
  try_except
    (md_content <- open_read_text E Utf8 fs file_path ;;
     html <- markdown_markdown E md_content ;;
     soup_get_text E html)
    (fun _ => Ok []).

(* ------------------------------------------------------------------ *)
(** * FileManager                                                      *)
(* ------------------------------------------------------------------ *)

Record FileManager : Type := {
  storage_dir : path;
  chunker : DocumentChunker
}.

(** [FileManager.__init__]: the chunker is always [DocumentChunker()]. *)
Definition FileManager_init (dir : path) : FileManager :=
  {| storage_dir := dir; chunker := default_chunker |}.

(** The mutable world of a [FileManager]: the file system and the database
    behind [db_path]. *)
Record state : Type := {
  st_fs : filesystem;
  st_db : db
}.

(** [d.get(k, default)] on a dictionary literal. *)
Fixpoint dict_get {V : Type} (d : list (str * V)) (k : str) (default : V) : V :=
  match d with
  | [] => default
  | (k', v) :: d' => if PyStr.eqb k' k then v else dict_get d' k default
  end.

(** [generate_file_id]; [timestamp] is [datetime.now().isoformat()]. *)
Definition generate_file_id (E : World) (timestamp : str) (filename : str) : str :=
  md5_hex E (filename ++ lit "_" ++ timestamp).

Definition calculate_file_hash (E : World) (fs : filesystem) (file_path : path)
    : result str :=
  b <- open_read_bytes fs file_path ;;
  Ok (md5_bytes E b).

Definition type_mapping : list (str * str) :=
  [ (lit ".pdf", lit "pdf"); (lit ".docx", lit "docx"); (lit ".doc", lit "doc");
    (lit ".xlsx", lit "excel"); (lit ".xls", lit "excel");
    (lit ".txt", lit "text"); (lit ".md", lit "markdown");
    (lit ".html", lit "html"); (lit ".htm", lit "html");
    (lit ".json", lit "json"); (lit ".xml", lit "xml") ].

Definition detect_file_type (E : World) (file_path : path) : str :=
  let extension := str_lower E (path_suffix E file_path) in
  dict_get type_mapping extension (lit "unknown").

Definition extract_text_content (E : World) (fs : filesystem) (file_path : path)
    (file_type : str) : result str :=
  let extractors :=
    [ (lit "pdf", extract_text_from_pdf); (lit "docx", extract_text_from_docx);
      (lit "excel", extract_text_from_excel); (lit "text", extract_text_from_txt);
      (lit "html", extract_text_from_html); (lit "markdown", extract_text_from_md) ] in
  let extractor := dict_get extractors file_type extract_text_from_txt in
  extractor E fs file_path.

(** [INSERT INTO files]: the primary key [id] must be new. *)
Definition insert_file (d : db) (r : file_row) : result db :=
  if existsb (fun f => PyStr.eqb (f_id f) (f_id r)) (files d)
  then Raise IntegrityError
  else Ok {| files := files d ++ [r]; chunks := chunks d;
             file_search := file_search d |}.

(** [INSERT INTO chunks]: the primary key [id] must be new. *)
Definition insert_chunk (d : db) (r : chunk_row) : result db :=
  if existsb (fun c => PyStr.eqb (c_id c) (c_id r)) (chunks d)
  then Raise IntegrityError
  else Ok {| files := files d; chunks := chunks d ++ [r];
             file_search := file_search d |}.

(** [INSERT INTO file_search] inside its own [try]: a failure is logged
    and the row is skipped. *)
Definition insert_fts (E : World) (d : db) (r : fts_row) : db :=
  if fts_insert_ok E r
  then {| files := files d; chunks := chunks d;
          file_search := file_search d ++ [r] |}
  else d.

Definition or_empty {A : Type} (o : option (list A)) : list A :=
  match o with
  | Some ((_ :: _) as l) => l
  | _ => []
  end.

(** The [for chunk in chunks] loop of [upload_file]. *)
Fixpoint insert_chunks (E : World) (d : db) (file_id filename : str)
    (category : option str) (tags : option (list str)) (cs : list chunk)
    : result db :=
  match cs with
  | [] => Ok d
  | c :: rest =>
      d1 <- insert_chunk d
              {| c_id := chunk_id c; c_file_id := file_id;
                 c_chunk_index := chunk_index c; c_content := content c;
                 c_content_preview := prefix (content c) 200 ++ lit "..." |} ;;
      let d2 := insert_fts E d1
                  {| s_file_id := file_id; s_filename := filename;
                     s_content := content c; s_category := or_empty category;
                     s_tags := json_dumps E (or_empty tags) |} in
      insert_chunks E d2 file_id filename category tags rest
  end.

Record upload_info : Type := {
  u_file_id : str;
  u_filename : str;
  u_file_type : str;
  u_chunks : Z
}.

(** The dictionary [upload_file] returns: [success: True] with the file's
    data, or [success: False] with the error. *)
Inductive upload_result : Type :=
| UploadSuccess (info : upload_info)
| UploadFailure (error : exn).

(** [upload_file].  The copy into the storage directory stays on disk when
    a later step fails; the database changes are committed only at the end,
    so a failure leaves the database as it was. *)
Definition upload_file (E : World) (self : FileManager) (timestamp : str)
    (file_path : path) (category : option str) (tags : option (list str))
    (description : option str) (st : state) : upload_result * state :=
  match st_fs st file_path with
  | None => (UploadFailure FileNotFoundError, st)
  | Some data =>
      let name := path_name E file_path in
      let file_id := generate_file_id E timestamp name in
      let file_type := detect_file_type E file_path in
      let file_size := len data in
      let content_hash := md5_bytes E data in
      let storage_path :=
        path_join E (storage_dir self) (file_id ++ lit "_" ++ name) in
      let fs' := fs_write (st_fs st) storage_path data in
      let committed :=
        text_content <- extract_text_content E fs' storage_path file_type ;;
        chunks <- chunk_text (chunker self) text_content file_id ;;
        d1 <- insert_file (st_db st)
                {| f_id := file_id; f_filename := name;
                   f_original_name := file_path; f_file_path := storage_path;
                   f_file_type := file_type; f_file_size := file_size;
                   f_content_hash := content_hash; f_category := category;
                   f_tags := json_dumps E (or_empty tags);
                   f_description := description; f_processed := true;
                   f_chunk_count := len chunks |} ;;
        d2 <- insert_chunks E d1 file_id name category tags chunks ;;
        Ok (d2, {| u_file_id := file_id; u_filename := name;
                   u_file_type := file_type; u_chunks := len chunks |}) in
      match committed with
      | Ok (d2, info) => (UploadSuccess info, {| st_fs := fs'; st_db := d2 |})
      | Raise e => (UploadFailure e, {| st_fs := fs'; st_db := st_db st |})
      end
  end.

(** The states a [FileManager] can be in: it starts on an empty database;
    files come and go on disk; documents enter through [upload_file]. *)
Inductive reachable (E : World) (self : FileManager) : state -> Prop :=
| reach_init : forall fs,
    reachable E self {| st_fs := fs; st_db := empty_db |}
| reach_disk : forall st fs,
    reachable E self st ->
    reachable E self {| st_fs := fs; st_db := st_db st |}
| reach_upload : forall st timestamp file_path category tags description,
    reachable E self st ->
    reachable E self
      (snd (upload_file E self timestamp file_path category tags description st)).

(** The chunk rows of one document, in insertion order. *)
Definition chunk_rows_of (d : db) (file_id : str) : list chunk_row :=
  filter (fun c => PyStr.eqb (c_file_id c) file_id) (chunks d).

(* ------------------------------------------------------------------ *)
(** * Search                                                           *)
(* ------------------------------------------------------------------ *)

(** Code points of the characters the search code names. *)
Definition c_dquote : char := 34%N.
Definition c_squote : char := 39%N.
Definition c_question : char := 63%N.
Definition c_lparen : char := 40%N.
Definition c_rparen : char := 41%N.
Definition c_lbracket : char := 91%N.
Definition c_rbracket : char := 93%N.
Definition c_lbrace : char := 123%N.
Definition c_rbrace : char := 125%N.
Definition c_star : char := 42%N.
Definition c_plus : char := 43%N.
Definition c_minus : char := 45%N.

(** The characters [clean_search_query] deletes, in the order of its
    [replace] calls. *)
Definition removed_chars : list char :=
  [ c_dquote; c_squote; c_question; c_lparen; c_rparen; c_lbracket;
    c_rbracket; c_lbrace; c_rbrace; c_star; c_plus ].

Definition clean_search_query (query : str) : str :=
  let query := fold_left (fun q c => replace c [] q) removed_chars query in
  let query := replace c_minus (lit " ") query in
  let words := split query in
  let cleaned_words := filter (fun word => (2 <=? len word)%Z) words in
  match cleaned_words with
  | [] => query
  | _ :: _ => join (lit " ") cleaned_words
  end.

Record search_hit : Type := {
  h_file_id : str;
  h_filename : str;
  h_file_type : str;
  h_category : option str;
  h_description : option str;
  h_chunk_count : Z;
  h_snippet : str
}.

Definition hit_of_row (row : search_row) : search_hit :=
  {| h_file_id := r_id row; h_filename := r_filename row;
     h_file_type := r_file_type row; h_category := r_category row;
     h_description := r_description row; h_chunk_count := r_chunk_count row;
     h_snippet := or_empty (r_snippet row) |}.

(** [if category:] - a filter is added for a non-empty string only. *)
Definition truthy (o : option str) : option str :=
  match o with
  | Some ((_ :: _) as s) => Some s
  | _ => None
  end.

(** The search statements a call executes, in order. *)
Inductive sql_call : Type :=
| FtsMatch (cleaned_query : str) (category file_type : option str)
| LikeSearch (pattern : str) (category file_type : option str).

Definition like_pattern (query : str) : str := lit "%" ++ query ++ lit "%".

Definition fallback_search (E : World) (d : db) (query : str)
    (category file_type : option str) : list sql_call * result (list search_hit) :=
  let pattern := like_pattern query in
  ( [LikeSearch pattern (truthy category) (truthy file_type)],
    try_except
      (rows <- like_select E d pattern (truthy category) (truthy file_type) ;;
       Ok (map hit_of_row rows))
      (fun _ => Ok []) ).

(** The Azerbaijani letters (schwa, dotless i, o and u with diaeresis,
    g with breve, s and c with cedilla) and the symbols [search_files]
    looks for in the query. *)
Definition azerbaijani_chars : list char := [601; 305; 246; 252; 287; 351; 231]%N.
Definition special_chars : list char :=
  [ c_dquote; c_squote; c_question; c_lparen; c_rparen; c_lbracket; c_rbracket ].

Definition has_any (cs : list char) (query : str) : bool :=
  existsb (fun c => contains c query) cs.

(** The body of the outer [try] of [search_files]. *)
Definition search_files_try (E : World) (d : db) (query : str)
    (category file_type : option str) : list sql_call * result (list search_hit) :=
  let cleaned_query := clean_search_query query in
  match strip cleaned_query with
  | [] => fallback_search E d query category file_type
  | _ :: _ =>
      let has_azerbaijani := has_any azerbaijani_chars query in
      let has_special_chars := has_any special_chars query in
      if has_azerbaijani || has_special_chars then
        fallback_search E d query category file_type
      else
        let call := FtsMatch cleaned_query (truthy category) (truthy file_type) in
        match fts_select E d cleaned_query (truthy category) (truthy file_type) with
        | Ok rows => ([call], Ok (map hit_of_row rows))
        | Raise _ =>
            let (calls, r) := fallback_search E d query category file_type in
            (call :: calls, r)
        end
  end.

Definition search_files (E : World) (d : db) (query : str)
    (category file_type : option str) : list sql_call * result (list search_hit) :=
  match search_files_try E d query category file_type with
  | (calls, Ok hits) => (calls, Ok hits)
  | (calls, Raise _) =>
      let (calls', r) := fallback_search E d query category file_type in
      (calls ++ calls', r)
  end.

(** The [/search-files] route of [app.py]. *)
Inductive search_response : Type :=
| QueryRequired400
| SearchResults200 (results : list search_hit) (query : str)
| SearchError500.

Definition search_files_route (E : World) (d : db) (q category : option str)
    : search_response :=
  let query := match q with Some s => s | None => [] end in
  match query with
  | [] => QueryRequired400
  | _ :: _ =>
      match snd (search_files E d query category None) with
      | Ok results => SearchResults200 results query
      | Raise _ => SearchError500
      end
  end.

(* ------------------------------------------------------------------ *)
(** * Reading a document back                                          *)
(* ------------------------------------------------------------------ *)

(** [ORDER BY chunk_index], as a stable insertion sort. *)
Fixpoint insert_by_index (r : chunk_row) (l : list chunk_row) : list chunk_row :=
  match l with
  | [] => [r]
  | x :: l' =>
      if (c_chunk_index r <? c_chunk_index x)%Z then r :: l
      else x :: insert_by_index r l'
  end.

Definition order_by_index (l : list chunk_row) : list chunk_row :=
  fold_right insert_by_index [] l.

Record file_content : Type := {
  fc_content : str;
  fc_filename : str;
  fc_file_type : str;
  fc_category : option str;
  fc_description : option str;
  fc_chunk_count : Z
}.

(** The dictionary [get_file_content] returns: the content with the file's
    data, or [error: File not found]. *)
Inductive content_result : Type :=
| ContentFound (c : file_content)
| ContentError (error : str).

(** An integer SQLite can store: [sqlite3] refuses to bind a Python
    integer outside the signed 64-bit range and raises [OverflowError]. *)
Definition fits_sqlite_integer (i : Z) : bool :=
  ((-9223372036854775808 <=? i) && (i <=? 9223372036854775807))%Z.

(** [get_file_content].  The first [execute] binds [chunk_index]; it is
    not inside a [try], so the [OverflowError] of an index that SQLite
    cannot store reaches the caller. *)
Definition get_file_content (d : db) (file_id : str) (chunk_index : option Z)
    : result content_result :=
  content <-
    match chunk_index with
    | Some i =>
        if fits_sqlite_integer i then
          let result :=
            find (fun c => PyStr.eqb (c_file_id c) file_id
                           && (c_chunk_index c =? i)%Z)
                 (chunks d) in
          Ok match result with
             | Some row => c_content row
             | None => []
             end
        else Raise OverflowError
    | None =>
        Ok (join (nl ++ nl)
                 (map c_content (order_by_index (chunk_rows_of d file_id))))
    end ;;
  match find (fun f => PyStr.eqb (f_id f) file_id) (files d) with
  | Some file_info =>
      Ok (ContentFound
            {| fc_content := content; fc_filename := f_filename file_info;
               fc_file_type := f_file_type file_info;
               fc_category := f_category file_info;
               fc_description := f_description file_info;
               fc_chunk_count := f_chunk_count file_info |})
  | None => Ok (ContentError (lit "File not found"))
  end.

(* ------------------------------------------------------------------ *)
(** * Predicates used in the statements                                *)
(* ------------------------------------------------------------------ *)

Definition nonspace (w : str) : Prop := forall c, In c w -> isspace c = false.

(** A word as [split] produces them: not empty, no white space inside. *)
Definition is_word (w : str) : Prop := w <> [] /\ nonspace w.

(** A character [clean_search_query] leaves alone. *)
Definition is_clean (c : char) : bool :=
  negb (existsb (fun d => (c =? d)%N) (removed_chars ++ [c_minus])).

(** The replacements of [clean_search_query], before the words are split. *)
Definition strip_specials (query : str) : str :=
  replace c_minus (lit " ")
          (fold_left (fun q c => replace c [] q) removed_chars query).

(** One chunk of the loop of [chunk_text]: the [k]-th, over the window that
    starts at word [i]. *)
Definition window_chunk (self : DocumentChunker) (words : list str)
    (document_id : str) (total : Z) (k : nat) (i : Z) : chunk :=
  {| chunk_id := document_id ++ lit "_chunk_" ++ of_nat k;
     content := join (lit " ") (slice words i (i + max_chunk_size self));
     chunk_index := Z.of_nat k;
     total_chunks := total |}.

(** The window starts the loop visits: those of [idx] up to and including
    the first whose window reaches the end of the [n] words. *)
Fixpoint visited (M n : Z) (idx : list Z) : list Z :=
  match idx with
  | [] => []
  | i :: rest => if (i + M >=? n)%Z then [i] else i :: visited M n rest
  end.

(** Chunks numbered from [k] on, one per window start. *)
Fixpoint window_chunks (self : DocumentChunker) (words : list str)
    (document_id : str) (total : Z) (k : nat) (starts : list Z) : list chunk :=
  match starts with
  | [] => []
  | i :: rest =>
      window_chunk self words document_id total k i
        :: window_chunks self words document_id total (S k) rest
  end.

(** The words [word<a>], ..., [word<a+count-1>] of the scenarios. *)
Definition numbered_words (a count : nat) : list str :=
  map (fun k => lit "word" ++ of_nat k) (seq a count).

(** Boolean equality of chunk lists, to settle the scenarios by
    evaluation. *)
Definition chunk_eqb (a b : chunk) : bool :=
  PyStr.eqb (chunk_id a) (chunk_id b) && PyStr.eqb (content a) (content b)
  && (chunk_index a =? chunk_index b)%Z && (total_chunks a =? total_chunks b)%Z.

Fixpoint chunks_eqb (l1 l2 : list chunk) : bool :=
  match l1, l2 with
  | [], [] => true
  | a :: l1', b :: l2' => chunk_eqb a b && chunks_eqb l1' l2'
  | _, _ => false
  end.

Definition returns_chunks (r : result (list chunk)) (l : list chunk) : bool :=
  match r with
  | Ok cs => chunks_eqb cs l
  | Raise _ => false
  end.

Definition is_wordb (w : str) : bool :=
  match w with
  | [] => false
  | _ :: _ => forallb (fun c => negb (isspace c)) w
  end.

(** The text of the chunking scenario: [word1 word2 ... word4500]. *)
Definition scenario_text : str := join (lit " ") (numbered_words 1 4500).

(** A text of 8000 one-letter words. *)
Definition long_text : str := join (lit " ") (repeat (lit "w") 8000).

(** The row [upload_file] stores for one chunk. *)
Definition chunk_row_of (file_id : str) (c : chunk) : chunk_row :=
  {| c_id := chunk_id c; c_file_id := file_id;
     c_chunk_index := chunk_index c; c_content := content c;
     c_content_preview := prefix (content c) 200 ++ lit "..." |}.

(** What holds of the database in every reachable state: each chunk row
    belongs to a document of the files table, and each document's rows are
    as many as its [chunk_count] says, with indices 0, 1, 2, ... in
    insertion order. *)
Definition chunks_consistent (d : db) : Prop :=
  (forall c, In c (chunks d) ->
             exists f, In f (files d) /\ f_id f = c_file_id c) /\
  (forall f, In f (files d) ->
     f_processed f = true /\
     f_chunk_count f = len (chunk_rows_of d (f_id f)) /\
     map c_chunk_index (chunk_rows_of d (f_id f)) =
       map Z.of_nat (seq 0 (length (chunk_rows_of d (f_id f))))).



(** A chunker with windows of three words that overlap by one. *)
Definition small_chunker : DocumentChunker :=
  {| max_chunk_size := 3; overlap_size := 1 |}.


(** The words [clean_search_query] keeps. *)
Definition kept_words (query : str) : list str :=
  filter (fun word => (2 <=? len word)%Z) (split (strip_specials query)).

(* ------------------------------------------------------------------ *)
(** * A small concrete world, for the examples                         *)
(* ------------------------------------------------------------------ *)

(** The part of a name from its last dot on. *)
Fixpoint suffix_from_last_dot (s : str) : str :=
  match s with
  | [] => []
  | c :: s' =>
      match suffix_from_last_dot s' with
      | [] => if (c =? 46)%N then s else []
      | (_ :: _) as r => r
      end
  end.

Definition ascii_lower (s : str) : str :=
  map (fun c => if ((65 <=? c) && (c <=? 90))%N then (c + 32)%N else c) s.

Definition decode_ascii (b : bytes) : option str :=
  if forallb (fun c => (c <? 128)%N) b then Some b else None.

(** Bare file names as paths, ASCII files, identity digests, no document
    parser installed, an index that accepts every row, and search
    statements that find nothing. *)
Definition demo_world : World :=
  {| path_name := fun p => p;
     path_suffix := suffix_from_last_dot;
     path_join := fun dir name => dir ++ lit "/" ++ name;
     str_lower := ascii_lower;
     md5_hex := fun s => s;
     md5_bytes := fun b => b;
     json_dumps := fun l => lit "[" ++ join (lit ", ") l ++ lit "]";
     decode_utf8 := decode_ascii;
     decode_cp1251 := decode_ascii;
     PdfReader_pages := fun _ => Raise (LibraryError "PyPDF2");
     docx_paragraphs := fun _ => Raise (LibraryError "docx");
     load_workbook := fun _ => Raise (LibraryError "openpyxl");
     soup_get_text := fun _ => Raise (LibraryError "bs4");
     markdown_markdown := fun _ => Raise (LibraryError "markdown");
     fts_insert_ok := fun _ => true;
     fts_select := fun _ _ _ _ => Ok [];
     like_select := fun _ _ _ _ => Ok [] |}.

(** A disk with one empty text file and one short note. *)
Definition demo_fs : filesystem :=
  fun p =>
    if PyStr.eqb p (lit "empty.txt") then Some []
    else if PyStr.eqb p (lit "note.txt") then Some (lit "hello world")
    else None.

Definition demo_manager : FileManager := FileManager_init (lit "documents").

Definition demo_start : state := {| st_fs := demo_fs; st_db := empty_db |}.

(** The state after uploading the note. *)
Definition demo_state : state :=
  snd (upload_file demo_world demo_manager (lit "2025-01-01T00:00:00")
         (lit "note.txt") None None None demo_start).

(** The id the note gets in [demo_state]. *)
Definition demo_note_id : str := lit "note.txt_2025-01-01T00:00:00".

(** The query of the scenario: s, schwa, n, schwa, d. *)
Definition query_sened : str := [115; 601; 110; 601; 100]%N.

(** The row of the note in the files table of [demo_state]. *)
Definition demo_note_row : file_row :=
  {| f_id := demo_note_id; f_filename := lit "note.txt";
     f_original_name := lit "note.txt";
     f_file_path := lit "documents/" ++ demo_note_id ++ lit "_note.txt";
     f_file_type := lit "text"; f_file_size := 11;
     f_content_hash := lit "hello world"; f_category := None;
     f_tags := lit "[]"; f_description := None; f_processed := true;
     f_chunk_count := 1 |}.

(* ------------------------------------------------------------------ *)
(** * Bulk upload                                                      *)
(* ------------------------------------------------------------------ *)

Definition supported_extensions : list str :=
  [ lit ".pdf"; lit ".docx"; lit ".xlsx"; lit ".txt"; lit ".md"; lit ".html" ].

(** The [results] dictionary of [bulk_upload]: the dictionaries of the
    successful uploads, and the path and error of each failed one. *)
Record bulk_details : Type := {
  b_successful : list upload_info;
  b_failed : list (path * exn)
}.

(** The dictionary [bulk_upload] returns: [error: Directory not found], or
    the three counts with the details. *)
Inductive bulk_result : Type :=
| BulkError (error : str)
| BulkDone (total_processed successful failed : Z) (details : bulk_details).

(** The [for file_path in directory.rglob(...)] loop.  The walk of the
    directory is given as the list of the paths it yields, each with the
    clock reading its upload would see. *)
Fixpoint bulk_loop (E : World) (self : FileManager) (category : option str)
    (entries : list (path * str)) (results : bulk_details) (st : state)
    : bulk_details * state :=
  match entries with
  | [] => (results, st)
  | (file_path, timestamp) :: rest =>
      let is_file := match st_fs st file_path with Some _ => true | None => false end in
      if is_file
         && existsb (PyStr.eqb (str_lower E (path_suffix E file_path)))
                    supported_extensions
      then
        match upload_file E self timestamp file_path category None None st with
        | (UploadSuccess info, st') =>
            bulk_loop E self category rest
              {| b_successful := b_successful results ++ [info];
                 b_failed := b_failed results |} st'
        | (UploadFailure e, st') =>
            bulk_loop E self category rest
              {| b_successful := b_successful results;
                 b_failed := b_failed results ++ [(file_path, e)] |} st'
        end
      else bulk_loop E self category rest results st
  end.

(** [bulk_upload]; [listing] is [None] when the directory does not exist. *)
Definition bulk_upload (E : World) (self : FileManager)
    (listing : option (list (path * str))) (category : option str) (st : state)
    : bulk_result * state :=
  match listing with
  | None => (BulkError (lit "Directory not found"), st)
  | Some entries =>
      let (results, st') :=
        bulk_loop E self category entries
          {| b_successful := []; b_failed := [] |} st in
      (BulkDone (len (b_successful results) + len (b_failed results))
                (len (b_successful results)) (len (b_failed results)) results,
       st')
  end.

(* ------------------------------------------------------------------ *)
(** * A second concrete world, where things go wrong                   *)
(* ------------------------------------------------------------------ *)

(** As [demo_world], but: the PDF reader finds two pages, the second of
    which cannot be extracted; every byte string decodes as Windows-1251;
    the index refuses every row; both search statements fail. *)
Definition faulty_world : World :=
  {| path_name := fun p => p;
     path_suffix := suffix_from_last_dot;
     path_join := fun dir name => dir ++ lit "/" ++ name;
     str_lower := ascii_lower;
     md5_hex := fun s => s;
     md5_bytes := fun b => b;
     json_dumps := fun l => lit "[" ++ join (lit ", ") l ++ lit "]";
     decode_utf8 := decode_ascii;
     decode_cp1251 := fun b => Some b;
     PdfReader_pages :=
       fun _ => Ok [Ok (lit "page one"); Raise (LibraryError "extract_text")];
     docx_paragraphs := fun _ => Raise (LibraryError "docx");
     load_workbook := fun _ => Raise (LibraryError "openpyxl");
     soup_get_text := fun _ => Raise (LibraryError "bs4");
     markdown_markdown := fun _ => Raise (LibraryError "markdown");
     fts_insert_ok := fun _ => false;
     fts_select := fun _ _ _ _ => Raise OperationalError;
     like_select := fun _ _ _ _ => Raise OperationalError |}.

(** A disk with a scanned PDF, a text file that is not UTF-8, and a note
    with an extension the bulk upload does not take. *)
Definition faulty_fs : filesystem :=
  fun p =>
    if PyStr.eqb p (lit "scan.pdf") then Some [37; 80; 68; 70]%N
    else if PyStr.eqb p (lit "latin.txt") then Some [200; 201]%N
    else if PyStr.eqb p (lit "old.doc") then Some (lit "old")
    else None.

Definition faulty_start : state := {| st_fs := faulty_fs; st_db := empty_db |}.

(* ------------------------------------------------------------------ *)
(** * Names for what an upload computes                                *)
(* ------------------------------------------------------------------ *)

(** The path of the copy [upload_file] makes in the storage directory. *)
Definition storage_path_of (E : World) (self : FileManager) (timestamp : str)
    (file_path : path) : path :=
  path_join E (storage_dir self)
    (generate_file_id E timestamp (path_name E file_path)
       ++ lit "_" ++ path_name E file_path).

(** The row [upload_file] adds to the files table for a source holding
    [data] that was cut into [count] chunks. *)
Definition uploaded_file_row (E : World) (self : FileManager) (timestamp : str)
    (file_path : path) (category : option str) (tags : option (list str))
    (description : option str) (data : bytes) (count : Z) : file_row :=
  {| f_id := generate_file_id E timestamp (path_name E file_path);
     f_filename := path_name E file_path;
     f_original_name := file_path;
     f_file_path := storage_path_of E self timestamp file_path;
     f_file_type := detect_file_type E file_path;
     f_file_size := len data;
     f_content_hash := md5_bytes E data;
     f_category := category;
     f_tags := json_dumps E (or_empty tags);
     f_description := description;
     f_processed := true;
     f_chunk_count := count |}.

(** The values of the primary keys of the two tables. *)
Definition file_ids (d : db) : list str := map f_id (files d).
Definition chunk_ids (d : db) : list str := map c_id (chunks d).

(* ------------------------------------------------------------------ *)
(** * The model on small inputs                                        *)
(* ------------------------------------------------------------------ *)

Example split_runs_of_spaces :
  split (lit "  ab  c d ") = [lit "ab"; lit "c"; lit "d"].
Proof. reflexivity. Qed.

Example slice_clamps :
  slice [1; 2; 3; 4; 5]%Z 3 10 = [4; 5]%Z /\
  slice [1; 2; 3; 4; 5]%Z 0 (-1) = [1; 2; 3; 4]%Z /\
  slice [1; 2; 3; 4; 5]%Z 4 2 = [].
Proof. repeat split. Qed.

Example range_steps :
  py_range 0 10 3 = Ok [0; 3; 6; 9]%Z /\
  py_range 0 10 (-1) = Ok [] /\
  py_range 0 10 0 = Raise ValueError.
Proof. repeat split. Qed.

Example clean_quoted_term :
  clean_search_query ([c_dquote] ++ lit "quoted" ++ [c_dquote] ++ lit " term")
  = lit "quoted term".
Proof. reflexivity. Qed.

Example clean_hyphen_and_short_word :
  clean_search_query (lit "well-known (x) fact") = lit "well known fact".
Proof. reflexivity. Qed.

(** When no word of two characters is left, the rewritten query itself is
    returned, short words included. *)
Example clean_only_short_words :
  clean_search_query (lit "a") = lit "a" /\
  clean_search_query (lit "(a) b") = lit "a b".
Proof. split; reflexivity. Qed.

Example chunk_five_words :
  chunk_text small_chunker (lit "a b c d e") (lit "doc") =
    Ok [ {| chunk_id := lit "doc_chunk_0"; content := lit "a b c";
            chunk_index := 0; total_chunks := 2 |};
         {| chunk_id := lit "doc_chunk_1"; content := lit "c d e";
            chunk_index := 1; total_chunks := 2 |} ].
Proof. reflexivity. Qed.

Example detect_upper_case_extension :
  detect_file_type demo_world (lit "Report.PDF") = lit "pdf" /\
  detect_file_type demo_world (lit "archive.tar.gz") = lit "unknown".
Proof. split; reflexivity. Qed.

Example upload_note :
  fst (upload_file demo_world demo_manager (lit "2025-01-01T00:00:00")
         (lit "note.txt") None None None demo_start) =
    UploadSuccess {| u_file_id := demo_note_id; u_filename := lit "note.txt";
                     u_file_type := lit "text"; u_chunks := 1 |} /\
  files (st_db demo_state) = [demo_note_row].
Proof. split; reflexivity. Qed.

(* ------------------------------------------------------------------ *)
(** * Strings: splitting and joining                                   *)
(* ------------------------------------------------------------------ *)

Lemma eqb_eq (a b : str) : PyStr.eqb a b = true <-> a = b.
Proof.
  revert b; induction a as [|c a IH]; intros [|d b]; simpl;
    try (split; [discriminate|discriminate]); [tauto|].
  rewrite andb_true_iff, N.eqb_eq, IH. split.
  - intros [-> ->]; reflexivity.
  - intros H; inversion H; auto.
Qed.

Lemma eqb_neq (a b : str) : PyStr.eqb a b = false <-> a <> b.
Proof.
  rewrite <- eqb_eq. destruct (PyStr.eqb a b); split; congruence.
Qed.

Lemma eqb_refl (a : str) : PyStr.eqb a a = true.
Proof. now apply eqb_eq. Qed.

Lemma nonspace_cons c w : nonspace (c :: w) <-> isspace c = false /\ nonspace w.
Proof.
  unfold nonspace; split.
  - intros H; split; [apply H; now left | intros d Hd; apply H; now right].
  - intros [Hc Hw] d [<- | Hd]; auto.
Qed.

Lemma split_words s : Forall is_word (split s).
Proof.
  induction s as [|c s IH]; simpl; [constructor|].
  destruct (isspace c) eqn:Ec; [exact IH|].
  destruct s as [|d s'].
  - constructor; [|constructor]. split; [discriminate|].
    intros x [<-|[]]; exact Ec.
  - destruct (isspace d) eqn:Ed.
    + constructor; [|exact IH]. split; [discriminate|].
      intros x [<-|[]]; exact Ec.
    + destruct (split (d :: s')) as [|w ws] eqn:Es.
      * constructor; [|constructor]. split; [discriminate|].
        intros x [<-|[]]; exact Ec.
      * inversion IH as [|? ? [Hne Hw] Hws]; subst.
        constructor; [|exact Hws]. split; [discriminate|].
        apply nonspace_cons; auto.
Qed.

Lemma split_chars s w c : In w (split s) -> In c w -> In c s.
Proof.
  revert w; induction s as [|a s IH]; simpl; intros w Hw Hc; [contradiction|].
  destruct (isspace a) eqn:Ea; [right; eapply IH; eauto|].
  destruct s as [|d s'].
  - destruct Hw as [<-|[]]. destruct Hc as [<-|[]]. now left.
  - destruct (isspace d) eqn:Ed.
    + destruct Hw as [<-|Hw].
      * destruct Hc as [<-|[]]. now left.
      * right; eapply IH; eauto.
    + destruct (split (d :: s')) as [|w0 ws] eqn:Es.
      * destruct Hw as [<-|[]]. destruct Hc as [<-|[]]. now left.
      * destruct Hw as [<-|Hw].
        -- destruct Hc as [<-|Hc]; [now left|].
           right; apply (IH w0); [now left|exact Hc].
        -- right; apply (IH w); [now right|exact Hc].
Qed.

Lemma isspace_space : isspace 32%N = true.
Proof. reflexivity. Qed.

(** A word followed by white space is the next item of [split]. *)
Lemma split_word_then_space c w sp rest :
  isspace c = false -> nonspace w -> isspace sp = true ->
  split (c :: w ++ sp :: rest) = (c :: w) :: split rest.
Proof.
  revert c; induction w as [|d w IH]; intros c Hc Hw Hsp.
  - simpl. now rewrite Hc, Hsp.
  - apply nonspace_cons in Hw as [Hd Hw].
    change (split (c :: (d :: w) ++ sp :: rest))
      with (if isspace c then split ((d :: w) ++ sp :: rest)
            else if isspace d then [c] :: split ((d :: w) ++ sp :: rest)
                 else match split ((d :: w) ++ sp :: rest) with
                      | w0 :: ws => (c :: w0) :: ws
                      | [] => [[c]]
                      end).
    rewrite Hc, Hd. simpl app. now rewrite (IH d Hd Hw Hsp).
Qed.

Lemma split_one_word c w :
  isspace c = false -> nonspace w -> split (c :: w) = [c :: w].
Proof.
  revert c; induction w as [|d w IH]; intros c Hc Hw.
  - simpl. now rewrite Hc.
  - apply nonspace_cons in Hw as [Hd Hw].
    change (split (c :: d :: w))
      with (if isspace c then split (d :: w)
            else if isspace d then [c] :: split (d :: w)
                 else match split (d :: w) with
                      | w0 :: ws => (c :: w0) :: ws
                      | [] => [[c]]
                      end).
    now rewrite Hc, Hd, (IH d Hd Hw).
Qed.

(** Joining words with single spaces and splitting again gives the words. *)
Lemma split_join ws : Forall is_word ws -> split (join (lit " ") ws) = ws.
Proof.
  induction 1 as [|w ws [Hne Hw] Hws IH]; [reflexivity|].
  destruct w as [|c w]; [congruence|].
  apply nonspace_cons in Hw as [Hc Hw].
  destruct ws as [|w' ws'].
  - simpl. now apply split_one_word.
  - change (join (lit " ") ((c :: w) :: w' :: ws'))
      with (c :: w ++ 32%N :: join (lit " ") (w' :: ws')).
    rewrite split_word_then_space by auto using isspace_space.
    now rewrite IH.
Qed.

Lemma join_chars sep ws c :
  In c (join sep ws) -> In c sep \/ exists w, In w ws /\ In c w.
Proof.
  induction ws as [|w ws IH]; simpl; [contradiction|].
  destruct ws as [|w' ws'].
  - intros H; right; exists w; auto.
  - intros H. apply in_app_or in H as [H|H].
    + right; exists w; auto.
    + apply in_app_or in H as [H|H]; [now left|].
      destruct (IH H) as [Hs|[x [Hx Hcx]]]; [now left|].
      right; exists x; split; [now right|exact Hcx].
Qed.

Lemma lstrip_keeps c s :
  In c s -> isspace c = false -> In c (lstrip s).
Proof.
  induction s as [|d s IH]; simpl; [contradiction|].
  intros Hin Hc. destruct (isspace d) eqn:Ed; [|exact Hin].
  destruct Hin as [->|Hin]; [congruence|auto].
Qed.

Lemma strip_keeps c s :
  In c s -> isspace c = false -> In c (strip s).
Proof.
  intros Hin Hc. unfold strip.
  apply -> in_rev. apply lstrip_keeps; [|exact Hc].
  apply -> in_rev. now apply lstrip_keeps.
Qed.



(* ------------------------------------------------------------------ *)
(** * Query sanitization                                               *)
(* ------------------------------------------------------------------ *)

Lemma clean_search_query_unfold query :
  clean_search_query query =
  match kept_words query with
  | [] => strip_specials query
  | _ :: _ => join (lit " ") (kept_words query)
  end.
Proof. reflexivity. Qed.

Lemma strip_specials_app a b :
  strip_specials (a ++ b) = strip_specials a ++ strip_specials b.
Proof.
  unfold strip_specials, removed_chars, replace. simpl fold_left.
  now rewrite !flat_map_app.
Qed.

Lemma strip_specials_cons c s :
  strip_specials (c :: s) = strip_specials [c] ++ strip_specials s.
Proof. exact (strip_specials_app [c] s). Qed.

Lemma replace_singleton a new c :
  replace a new [c] = if (c =? a)%N then new else [c].
Proof. unfold replace; simpl. now rewrite app_nil_r. Qed.

Lemma is_clean_false c :
  is_clean c = false -> In c (removed_chars ++ [c_minus]).
Proof.
  unfold is_clean. rewrite negb_false_iff, existsb_exists.
  intros [d [Hd E]]. apply N.eqb_eq in E. now subst.
Qed.

Lemma is_clean_true c d :
  is_clean c = true -> In d (removed_chars ++ [c_minus]) -> (c =? d)%N = false.
Proof.
  unfold is_clean. rewrite negb_true_iff. intros H Hd.
  destruct (c =? d)%N eqn:E; [|reflexivity].
  rewrite <- H. symmetry. apply existsb_exists. now exists d.
Qed.

(** One character is deleted, turned into a space, or kept; what remains
    is never one of the characters the function rewrites. *)
Lemma strip_specials_one c :
  Forall (fun d => is_clean d = true) (strip_specials [c]) /\
  (is_clean c = true -> strip_specials [c] = [c]).
Proof.
  destruct (is_clean c) eqn:E.
  - assert (Hfix : strip_specials [c] = [c]).
    { unfold strip_specials, removed_chars. cbn [fold_left].
      repeat (rewrite replace_singleton;
              rewrite (is_clean_true _ E) by (simpl; tauto)).
      reflexivity. }
    rewrite Hfix. split; [|reflexivity]. constructor; [exact E|constructor].
  - split; [|discriminate].
    apply is_clean_false in E. simpl in E.
    repeat (destruct E as [<-|E]; [vm_compute; repeat constructor|]).
    contradiction.
Qed.

Lemma strip_specials_clean s :
  Forall (fun d => is_clean d = true) (strip_specials s).
Proof.
  induction s as [|c s IH]; [constructor|].
  rewrite strip_specials_cons. apply Forall_app; split; [|exact IH].
  apply strip_specials_one.
Qed.

Lemma strip_specials_fixed s :
  Forall (fun d => is_clean d = true) s -> strip_specials s = s.
Proof.
  induction 1 as [|c s Hc Hs IH]; [reflexivity|].
  rewrite strip_specials_cons, IH.
  now rewrite (proj2 (strip_specials_one c) Hc).
Qed.

Lemma filter_words_clean (f : str -> bool) s :
  Forall (fun d => is_clean d = true) s ->
  Forall (fun d => is_clean d = true) (join (lit " ") (filter f (split s))).
Proof.
  intros Hs. apply Forall_forall. intros c Hc.
  apply join_chars in Hc as [Hc|[w [Hw Hc]]].
  - destruct Hc as [<-|[]]. reflexivity.
  - apply filter_In in Hw as [Hw _].
    rewrite Forall_forall in Hs. apply Hs. eapply split_chars; eauto.
Qed.

Lemma filter_idem {A : Type} (f : A -> bool) l : filter f (filter f l) = filter f l.
Proof.
  induction l as [|x l IH]; simpl; [reflexivity|].
  destruct (f x) eqn:E; simpl; [rewrite E|]; now rewrite IH.
Qed.

Lemma Forall_filter {A : Type} (P : A -> Prop) (f : A -> bool) l :
  Forall P l -> Forall P (filter f l).
Proof.
  induction 1; simpl; [constructor|]. destruct (f x); auto.
Qed.

Lemma kept_words_fixed r :
  Forall (fun d => is_clean d = true) r ->
  kept_words r = filter (fun word => (2 <=? len word)%Z) (split r).
Proof. intros H. unfold kept_words. now rewrite (strip_specials_fixed H). Qed.

Lemma kept_words_join q :
  kept_words (join (lit " ") (kept_words q)) = kept_words q.
Proof.
  pose proof (strip_specials_clean q) as Hclean.
  unfold kept_words at 2 3.
  rewrite (kept_words_fixed (filter_words_clean _ Hclean)).
  rewrite (split_join (Forall_filter _ (split_words _))).
  apply filter_idem.
Qed.

(** C9.  Query sanitization is idempotent: cleaning a cleaned query gives
    the same string. *)
Theorem clean_search_query_idempotent (q : str) :
  clean_search_query (clean_search_query q) = clean_search_query q.
Proof.
  rewrite (clean_search_query_unfold q).
  pose proof (strip_specials_clean q) as Hclean.
  destruct (kept_words q) as [|w ws] eqn:Ef.
  - rewrite clean_search_query_unfold.
    rewrite (kept_words_fixed Hclean), (strip_specials_fixed Hclean).
    unfold kept_words in Ef. now rewrite Ef.
  - rewrite <- Ef, clean_search_query_unfold, kept_words_join.
    now rewrite Ef.
Qed.

(* ------------------------------------------------------------------ *)
(** * The search orchestrator                                          *)
(* ------------------------------------------------------------------ *)

Lemma fallback_search_returns E d q cat ft :
  exists hits, snd (fallback_search E d q cat ft) = Ok hits.
Proof.
  unfold fallback_search; simpl.
  destruct (like_select E d (like_pattern q) (truthy cat) (truthy ft));
    simpl; eauto.
Qed.

Lemma fallback_search_calls E d q cat ft :
  fst (fallback_search E d q cat ft) =
  [LikeSearch (like_pattern q) (truthy cat) (truthy ft)].
Proof. reflexivity. Qed.

Lemma search_files_of_fallback E d q cat ft :
  search_files_try E d q cat ft = fallback_search E d q cat ft ->
  search_files E d q cat ft = fallback_search E d q cat ft.
Proof.
  intros H. unfold search_files. rewrite H.
  destruct (fallback_search_returns E d q cat ft) as [hits Hh].
  destruct (fallback_search E d q cat ft) as [calls r]. simpl in Hh.
  now subst r.
Qed.

Lemma search_files_try_returns E d q cat ft :
  exists hits, snd (search_files_try E d q cat ft) = Ok hits.
Proof.
  unfold search_files_try.
  destruct (strip (clean_search_query q)); [apply fallback_search_returns|].
  destruct (has_any azerbaijani_chars q || has_any special_chars q);
    [apply fallback_search_returns|].
  destruct (fts_select E d (clean_search_query q) (truthy cat) (truthy ft)).
  - simpl; eauto.
  - destruct (fallback_search_returns E d q cat ft) as [hits Hh].
    destruct (fallback_search E d q cat ft) as [calls r]. simpl in *. eauto.
Qed.

Lemma search_files_returns E d q cat ft :
  exists hits, snd (search_files E d q cat ft) = Ok hits.
Proof.
  unfold search_files.
  destruct (search_files_try_returns E d q cat ft) as [hits Hh].
  destruct (search_files_try E d q cat ft) as [calls r]. simpl in Hh.
  subst r. simpl. eauto.
Qed.

(** C2, as stated, fails: a query with a plus sign, or with a letter with a
    diacritic that is not one of the seven the code lists (here e with
    acute accent, code point 233), is sent to the index. *)
Lemma search_files_indexes_unlisted_characters :
  contains c_plus (lit "ab+cd") = true /\
  fst (search_files demo_world empty_db (lit "ab+cd") None None) =
    [FtsMatch (lit "abcd") None None] /\
  fst (search_files demo_world empty_db [99; 97; 102; 233]%N None None) =
    [FtsMatch [99; 97; 102; 233]%N None None].
Proof. repeat split; reflexivity. Qed.

(** C2, amended.  For every query that contains one of the seven lower-case
    Azerbaijani letters the code lists, or one of the double quote, the
    single quote, the question mark, a parenthesis or a square bracket,
    [search_files] runs only the substring (LIKE) statement, on the original
    query, and returns what it returns; the query of the scenario, with its
    schwa, is such a query. *)
Theorem search_files_listed_characters_use_like (E : World) (d : db) (q : str)
    (category file_type : option str)
    (H : has_any azerbaijani_chars q = true \/ has_any special_chars q = true) :
  search_files E d q category file_type =
    fallback_search E d q category file_type /\
  fst (search_files E d q category file_type) =
    [LikeSearch (like_pattern q) (truthy category) (truthy file_type)] /\
  has_any azerbaijani_chars query_sened = true.
Proof.
  assert (Hs : search_files E d q category file_type =
               fallback_search E d q category file_type).
  { apply search_files_of_fallback. unfold search_files_try.
    destruct (strip (clean_search_query q)); [reflexivity|].
    replace (has_any azerbaijani_chars q || has_any special_chars q)
      with true; [reflexivity|].
    symmetry. apply orb_true_iff. exact H. }
  split; [exact Hs | split; [now rewrite Hs | reflexivity]].
Qed.

Lemma search_files_listed_characters_use_like_witness :
  search_files demo_world empty_db query_sened None None =
    fallback_search demo_world empty_db query_sened None None /\
  fst (search_files demo_world empty_db query_sened None None) =
    [LikeSearch (like_pattern query_sened) None None] /\
  has_any azerbaijani_chars query_sened = true.
Proof.
  apply (search_files_listed_characters_use_like demo_world empty_db
           query_sened None None).
  left. reflexivity.
Defined.




(** C5, as stated, fails: on the empty query [search_files] reports no
    error; it runs the substring statement with the pattern of two percent
    signs and returns its (here empty) list of hits. *)
Lemma search_files_empty_query_is_not_an_error :
  search_files demo_world (st_db demo_state) [] None None =
    ([LikeSearch (lit "%%") None None], Ok []).
Proof. reflexivity. Qed.

(** C5, amended.  [search_files] returns a list of hits for every query,
    the empty one included, and never raises; the empty query is refused
    one level up, by the search route, which answers a missing or empty
    query with an error and every other query with the hits of
    [search_files]. *)
Theorem search_never_raises_and_route_rejects_empty (E : World) (d : db)
    (category file_type : option str) :
  (forall q, exists hits, snd (search_files E d q category file_type) = Ok hits) /\
  search_files_route E d None category = QueryRequired400 /\
  search_files_route E d (Some []) category = QueryRequired400 /\
  (forall c q, exists hits,
      snd (search_files E d (c :: q) category None) = Ok hits /\
      search_files_route E d (Some (c :: q)) category =
        SearchResults200 hits (c :: q)).
Proof.
  split; [|split; [reflexivity|split; [reflexivity|]]].
  - intros q. apply search_files_returns.
  - intros c q.
    destruct (search_files_returns E d (c :: q) category None) as [hits Hh].
    exists hits. split; [exact Hh|].
    unfold search_files_route. now rewrite Hh.
Qed.

(* ------------------------------------------------------------------ *)
(** * Text extraction                                                  *)
(* ------------------------------------------------------------------ *)

(** The PDF routine catches whatever goes wrong and returns a string. *)
Lemma extract_text_from_pdf_returns E fs p :
  exists text, extract_text_from_pdf E fs p = Ok text.
Proof.
  unfold extract_text_from_pdf, try_except.
  destruct (b <- open_read_bytes fs p ;;
            pages <- PdfReader_pages E b ;; pdf_pages_text pages []); eauto.
Qed.

(** The plain-text routine lets through every error of its first read
    that is not a decoding error. *)
Lemma extract_text_from_txt_unreadable E fs p :
  fs p = None -> extract_text_from_txt E fs p = Raise FileNotFoundError.
Proof.
  intros H. unfold extract_text_from_txt, open_read_text, open_read_bytes.
  now rewrite H.
Qed.

(** C4.  The plain-text routine does not keep the promise the other
    routines keep: on a path that cannot be opened the PDF routine returns
    the empty string, and the plain-text routine, called directly or through
    the dispatcher, raises. *)
Theorem extract_text_from_txt_propagates_open_error :
  demo_fs (lit "missing.txt") = None /\
  extract_text_from_pdf demo_world demo_fs (lit "missing.txt") = Ok [] /\
  extract_text_from_txt demo_world demo_fs (lit "missing.txt") =
    Raise FileNotFoundError /\
  extract_text_content demo_world demo_fs (lit "missing.txt") (lit "text") =
    Raise FileNotFoundError.
Proof. split; [|split; [|split]]; reflexivity. Qed.

(* ------------------------------------------------------------------ *)
(** * Reading a document back                                          *)
(* ------------------------------------------------------------------ *)

Lemma find_none_iff {A : Type} (f : A -> bool) l :
  find f l = None <-> forall x, In x l -> f x = false.
Proof.
  split; [apply find_none|].
  induction l as [|x l IH]; simpl; intros H; [reflexivity|].
  rewrite (H x) by now left. apply IH. intros y Hy. apply H. now right.
Qed.

Lemma fits_sqlite_integer_iff (i : Z) :
  fits_sqlite_integer i = true <-> (- 2 ^ 63 <= i < 2 ^ 63)%Z.
Proof.
  unfold fits_sqlite_integer.
  rewrite andb_true_iff, !Z.leb_le.
  change (2 ^ 63)%Z with 9223372036854775808%Z. lia.
Qed.

(** C6, as stated, fails: the note of [demo_state] has one chunk, of index
    0; asking for its chunk 5 gives a successful result with empty
    content. *)
Lemma get_file_content_missing_chunk_is_not_an_error :
  get_file_content (st_db demo_state) demo_note_id (Some 5%Z) =
    Ok (ContentFound
          {| fc_content := []; fc_filename := lit "note.txt";
             fc_file_type := lit "text"; fc_category := None;
             fc_description := None; fc_chunk_count := 1 |}).
Proof. reflexivity. Qed.

(** C6, amended.  When the document exists, the asked index is an integer
    SQLite can store (signed 64 bits) and no chunk row has that index,
    [get_file_content] returns a successful result: the data of the
    document with the empty string as content. *)
Theorem get_file_content_missing_chunk_gives_empty_content (d : db)
    (file_id : str) (i : Z) (file_info : file_row)
    (Hrange : (- 2 ^ 63 <= i < 2 ^ 63)%Z)
    (Hfile : find (fun f => PyStr.eqb (f_id f) file_id) (files d) = Some file_info)
    (Hchunk : forall c, In c (chunks d) -> c_file_id c = file_id ->
                        c_chunk_index c <> i) :
  get_file_content d file_id (Some i) =
    Ok (ContentFound
          {| fc_content := []; fc_filename := f_filename file_info;
             fc_file_type := f_file_type file_info;
             fc_category := f_category file_info;
             fc_description := f_description file_info;
             fc_chunk_count := f_chunk_count file_info |}).
Proof.
  unfold get_file_content.
  rewrite (proj2 (fits_sqlite_integer_iff i) Hrange).
  replace (find _ (chunks d)) with (@None chunk_row).
  - cbn [bind]. now rewrite Hfile.
  - symmetry. apply find_none_iff. intros c Hc.
    destruct (PyStr.eqb (c_file_id c) file_id) eqn:E; [|reflexivity].
    apply eqb_eq in E. simpl. apply Z.eqb_neq. now apply Hchunk.
Qed.

Lemma get_file_content_missing_chunk_gives_empty_content_witness :
  get_file_content (st_db demo_state) demo_note_id (Some 5%Z) =
    Ok (ContentFound
          {| fc_content := []; fc_filename := lit "note.txt";
             fc_file_type := lit "text"; fc_category := None;
             fc_description := None; fc_chunk_count := 1 |}).
Proof.
  apply (@get_file_content_missing_chunk_gives_empty_content
           (st_db demo_state) demo_note_id 5 demo_note_row).
  - split; [discriminate|reflexivity].
  - reflexivity.
  - intros c Hc _. cbv in Hc. destruct Hc as [<-|[]]. discriminate.
Defined.

(* ------------------------------------------------------------------ *)
(** * The chunker                                                      *)
(* ------------------------------------------------------------------ *)

Lemma chunk_loop_windows self words id total idx chunks :
  chunk_loop self words id total idx chunks =
  chunks ++ window_chunks self words id total (length chunks)
              (visited (max_chunk_size self) (len words) idx).
Proof.
  revert chunks; induction idx as [|i rest IH]; intros chunks; simpl.
  - now rewrite app_nil_r.
  - destruct (i + max_chunk_size self >=? len words)%Z; simpl.
    + reflexivity.
    + rewrite IH, <- app_assoc, length_app. simpl.
      now rewrite Nat.add_1_r.
Qed.

Lemma window_chunks_length self words id total k starts :
  length (window_chunks self words id total k starts) = length starts.
Proof.
  revert k; induction starts as [|i rest IH]; intros k; simpl; auto.
Qed.

Lemma window_chunks_nth self words id total k starts j dflt :
  (j < length starts)%nat ->
  nth j (window_chunks self words id total k starts) dflt =
  window_chunk self words id total (k + j) (nth j starts 0%Z).
Proof.
  revert k j; induction starts as [|i rest IH]; intros k j Hj; simpl in *.
  - lia.
  - destruct j as [|j]; [now rewrite Nat.add_0_r|].
    rewrite IH by lia. f_equal. lia.
Qed.

Lemma window_chunks_indices self words id total k starts :
  map chunk_index (window_chunks self words id total k starts) =
  map Z.of_nat (seq k (length starts)).
Proof.
  revert k; induction starts as [|i rest IH]; intros k; simpl; [reflexivity|].
  now rewrite IH.
Qed.

Lemma window_chunks_total self words id total k starts c :
  In c (window_chunks self words id total k starts) -> total_chunks c = total.
Proof.
  revert k; induction starts as [|i rest IH]; intros k; simpl; [contradiction|].
  intros [<-|H]; [reflexivity|eauto].
Qed.

(** The chunk indices of any result of [chunk_text] count up from 0. *)
Lemma chunk_text_indices self text id cs :
  chunk_text self text id = Ok cs ->
  map chunk_index cs = map Z.of_nat (seq 0 (length cs)).
Proof.
  unfold chunk_text.
  destruct (len (split text) <=? max_chunk_size self)%Z.
  - intros H; inversion H; reflexivity.
  - destruct (max_chunk_size self =? 0)%Z; [discriminate|].
    destruct (py_range 0 (len (split text))
                (max_chunk_size self - overlap_size self)) as [idx|e];
      simpl; [|discriminate].
    intros H; inversion H; subst cs; clear H.
    rewrite chunk_loop_windows. simpl.
    now rewrite window_chunks_indices, window_chunks_length.
Qed.

Lemma chunk_eqb_eq a b : chunk_eqb a b = true -> a = b.
Proof.
  unfold chunk_eqb. rewrite !andb_true_iff, !eqb_eq, !Z.eqb_eq.
  destruct a, b; simpl. intros [[[-> ->] ->] ->]. reflexivity.
Qed.

Lemma chunks_eqb_eq l1 l2 : chunks_eqb l1 l2 = true -> l1 = l2.
Proof.
  revert l2; induction l1 as [|a l1 IH]; intros [|b l2]; simpl;
    try discriminate; [reflexivity|].
  rewrite andb_true_iff. intros [Hab Hl].
  now rewrite (chunk_eqb_eq _ _ Hab), (IH _ Hl).
Qed.

Lemma returns_chunks_eq r l : returns_chunks r l = true -> r = Ok l.
Proof.
  destruct r as [cs|e]; simpl; [|discriminate].
  intros H. now rewrite (chunks_eqb_eq _ _ H).
Qed.

Lemma is_wordb_word w : is_wordb w = true -> is_word w.
Proof.
  destruct w as [|c w]; simpl; [discriminate|].
  intros H. split; [discriminate|].
  intros d Hd. change (In d (c :: w)) in Hd.
  change (forallb (fun c => negb (isspace c)) (c :: w) = true) in H.
  rewrite forallb_forall in H. apply H in Hd.
  now apply negb_true_iff.
Qed.

Lemma words_are_words ws : forallb is_wordb ws = true -> Forall is_word ws.
Proof.
  rewrite forallb_forall, Forall_forall.
  intros H w Hw. apply is_wordb_word, H, Hw.
Qed.

Lemma py_range_from_zero stop step :
  (0 < step)%Z ->
  py_range 0 stop step =
  Ok (map (fun k => Z.of_nat k * step)%Z
          (seq 0 (Z.to_nat ((stop + step - 1) / step)))).
Proof.
  intros H. unfold py_range.
  destruct (Z.eqb_spec step 0); [lia|].
  destruct (Z.ltb_spec 0 step); [|lia].
  now rewrite Z.sub_0_r.
Qed.

Lemma visited_prefix M n idx : exists rest, idx = visited M n idx ++ rest.
Proof.
  induction idx as [|i idx [rest IH]]; simpl; [now exists []|].
  destruct (i + M >=? n)%Z.
  - now exists idx.
  - exists rest. simpl. now f_equal.
Qed.

Lemma visited_nth M n idx k :
  (k < length (visited M n idx))%nat ->
  nth k (visited M n idx) 0%Z = nth k idx 0%Z.
Proof.
  intros H. destruct (visited_prefix M n idx) as [rest E].
  rewrite E at 2. now rewrite app_nth1.
Qed.

Lemma visited_length M n idx : (length (visited M n idx) <= length idx)%nat.
Proof.
  destruct (visited_prefix M n idx) as [rest E].
  rewrite E at 2. rewrite length_app. lia.
Qed.

Lemma visited_nonempty M n idx : idx <> [] -> visited M n idx <> [].
Proof.
  destruct idx as [|i idx]; [congruence|]. intros _. simpl.
  destruct (i + M >=? n)%Z; discriminate.
Qed.

(** Before the last visited window, no window reaches the end. *)
Lemma visited_inner M n idx k :
  (S k < length (visited M n idx))%nat ->
  (nth k (visited M n idx) 0 + M < n)%Z.
Proof.
  revert k; induction idx as [|i idx IH]; intros k; simpl; [lia|].
  destruct (Z.geb_spec (i + M) n) as [Hge|Hlt]; simpl; [lia|].
  destruct k as [|k]; [lia|]. intros Hk. apply IH. lia.
Qed.

(** The last visited window reaches the end, or the list ran out. *)
Lemma visited_last M n idx k :
  S k = length (visited M n idx) ->
  (n <= nth k (visited M n idx) 0 + M)%Z \/
  length (visited M n idx) = length idx.
Proof.
  revert k; induction idx as [|i idx IH]; intros k; simpl; [lia|].
  destruct (Z.geb_spec (i + M) n) as [Hge|Hlt]; simpl.
  - intros Hk. assert (k = 0%nat) by lia. subst k. left. lia.
  - destruct k as [|k].
    + intros Hk. right. f_equal.
      destruct idx as [|j idx]; [reflexivity|].
      exfalso. apply (@visited_nonempty M n (j :: idx)); [discriminate|].
      destruct (visited M n (j :: idx)); [reflexivity|discriminate].
    + intros Hk. destruct (IH k) as [Hl|Hl]; [lia|now left|right; lia].
Qed.

Lemma slice_window {A : Type} (l : list A) (i M : Z) :
  (0 <= i <= len l)%Z -> (0 <= M)%Z ->
  slice l i (i + M) = firstn (Z.to_nat M) (skipn (Z.to_nat i) l).
Proof.
  intros Hi HM. unfold slice, slice_bound. fold (len l).
  destruct (Z.ltb_spec i 0); [lia|].
  destruct (Z.ltb_spec (i + M) 0); [lia|].
  rewrite (Z.min_l i (len l)) by lia.
  assert (Hlen : length (skipn (Z.to_nat i) l) = Z.to_nat (len l - i)).
  { rewrite length_skipn. unfold len. lia. }
  destruct (Z.le_gt_cases (i + M) (len l)).
  - rewrite Z.min_l by lia. f_equal. lia.
  - rewrite Z.min_r by lia.
    rewrite !firstn_all2; [reflexivity| |]; rewrite Hlen; lia.
Qed.

(** The starts [range] offers: multiples of the step, all inside the text. *)
Lemma range_start_inside (n step : Z) (k : nat) :
  (0 < step)%Z ->
  (k < Z.to_nat ((n + step - 1) / step))%nat ->
  (0 <= Z.of_nat k * step < n)%Z.
Proof.
  intros Hs Hk.
  pose proof (Z.mul_div_le (n + step - 1) step Hs).
  assert (Z.of_nat k + 1 <= (n + step - 1) / step)%Z by lia.
  nia.
Qed.

Lemma range_covers (n step : Z) :
  (0 < step)%Z -> (0 < n)%Z ->
  (n <= Z.of_nat (Z.to_nat ((n + step - 1) / step)) * step)%Z /\
  (0 < Z.to_nat ((n + step - 1) / step))%nat.
Proof.
  intros Hs Hn.
  pose proof (Z.mul_succ_div_gt (n + step - 1) step Hs).
  assert (0 < (n + step - 1) / step)%Z.
  { apply Z.div_str_pos. lia. }
  split; [|lia]. rewrite Z2Nat.id by lia. nia.
Qed.

Lemma nth_range_start (step : Z) (count k : nat) :
  (k < count)%nat ->
  nth k (map (fun j => Z.of_nat j * step)%Z (seq 0 count)) 0%Z =
  (Z.of_nat k * step)%Z.
Proof.
  intros Hk.
  change 0%Z with ((fun j => Z.of_nat j * step)%Z 0%nat) at 1.
  rewrite map_nth, seq_nth by exact Hk. reflexivity.
Qed.

(** With a positive step and more words than a window holds, [chunk_text]
    returns the chunks of the visited windows. *)
Lemma chunk_text_windows self text id :
  (0 < max_chunk_size self - overlap_size self)%Z ->
  (max_chunk_size self <> 0)%Z ->
  (max_chunk_size self < len (split text))%Z ->
  chunk_text self text id =
  Ok (window_chunks self (split text) id
        ((len (split text) + max_chunk_size self - 1) / max_chunk_size self) 0
        (visited (max_chunk_size self) (len (split text))
           (map (fun k => Z.of_nat k * (max_chunk_size self - overlap_size self))%Z
                (seq 0 (Z.to_nat
                   ((len (split text)
                     + (max_chunk_size self - overlap_size self) - 1)
                    / (max_chunk_size self - overlap_size self))))))).
Proof.
  intros Hstep HM Hn. unfold chunk_text.
  destruct (Z.leb_spec (len (split text)) (max_chunk_size self)); [lia|].
  destruct (Z.eqb_spec (max_chunk_size self) 0); [lia|].
  rewrite py_range_from_zero by exact Hstep. simpl.
  now rewrite chunk_loop_windows.
Qed.

Lemma to_nat_scaled (k : nat) (s : Z) :
  (0 <= s)%Z -> Z.to_nat (Z.of_nat k * s) = (k * Z.to_nat s)%nat.
Proof. intros H. rewrite Z2Nat.inj_mul, Nat2Z.id by lia. reflexivity. Qed.

(** What [chunk_text] returns when the text has more words than a window
    and the overlap is smaller than the window: at least one chunk; chunk
    [k] has index [k] and holds the words of the window that starts at word
    [k * (max_chunk_size - overlap_size)]; every chunk carries the same
    [total_chunks]; only the last window reaches the end of the text. *)
Lemma chunk_text_overlapping self text id :
  (0 <= overlap_size self < max_chunk_size self)%Z ->
  (max_chunk_size self < len (split text))%Z ->
  exists cs,
    chunk_text self text id = Ok cs /\
    cs <> [] /\
    forall k c, nth_error cs k = Some c ->
      chunk_index c = Z.of_nat k /\
      total_chunks c =
        ((len (split text) + max_chunk_size self - 1) / max_chunk_size self)%Z /\
      content c =
        join (lit " ")
             (firstn (Z.to_nat (max_chunk_size self))
                (skipn (k * Z.to_nat (max_chunk_size self - overlap_size self))
                       (split text))) /\
      ((S k < length cs)%nat ->
       Z.of_nat k * (max_chunk_size self - overlap_size self)
         + max_chunk_size self < len (split text))%Z /\
      (S k = length cs ->
       len (split text) <=
         Z.of_nat k * (max_chunk_size self - overlap_size self)
         + max_chunk_size self)%Z.
Proof.
  intros HO Hn.
  assert (Hcs := @chunk_text_windows self text id ltac:(lia) ltac:(lia) Hn).
  set (M := max_chunk_size self) in *.
  set (step := (M - overlap_size self)%Z) in *.
  set (words := split text) in *.
  set (n := len words) in *.
  assert (Hstep : (0 < step)%Z) by (unfold step; lia).
  assert (Hge : (step <= M)%Z) by (unfold step; lia).
  assert (Hn0 : (0 < n)%Z) by lia.
  destruct (@range_covers n step Hstep Hn0) as [Hcover Hcount].
  set (count := Z.to_nat ((n + step - 1) / step)) in *.
  set (idx := map (fun j => Z.of_nat j * step)%Z (seq 0 count)).
  set (v := visited M n idx).
  assert (Hidx_len : length idx = count).
  { unfold idx. now rewrite length_map, length_seq. }
  assert (Hv_len : (length v <= count)%nat).
  { rewrite <- Hidx_len. apply visited_length. }
  assert (Hv_ne : v <> []).
  { apply visited_nonempty. intros E. apply (f_equal (@length Z)) in E.
    rewrite Hidx_len in E. simpl in E. lia. }
  assert (Hv_nth : forall k, (k < length v)%nat ->
                             nth k v 0%Z = (Z.of_nat k * step)%Z).
  { intros k Hk. unfold v. rewrite visited_nth by exact Hk.
    apply nth_range_start. lia. }
  eexists. split; [exact Hcs|].
  split.
  - intros E. apply (f_equal (@length chunk)) in E.
    rewrite window_chunks_length in E. simpl in E.
    apply Hv_ne, length_zero_iff_nil, E.
  - intros k c Hc.
    change (nth_error (window_chunks self words id ((n + M - 1) / M) 0 v) k
            = Some c) in Hc.
    assert (Hk : (k < length v)%nat).
    { rewrite <- (window_chunks_length self words id ((n + M - 1) / M) 0 v).
      apply nth_error_Some. congruence. }
    apply (nth_error_nth _ _ c) in Hc.
    rewrite window_chunks_nth in Hc by exact Hk.
    rewrite (Hv_nth k Hk) in Hc. simpl in Hc. subst c.
    rewrite window_chunks_length.
    assert (Hin : (0 <= Z.of_nat k * step < n)%Z).
    { apply range_start_inside; [exact Hstep|]. fold count. lia. }
    split; [reflexivity|]. split; [reflexivity|]. split; [|split].
    + simpl. fold M. rewrite slice_window by (fold n; lia).
      do 3 f_equal. apply to_nat_scaled, Z.lt_le_incl, Hstep.
    + intros Hlt. rewrite <- (Hv_nth k Hk). apply visited_inner. exact Hlt.
    + intros Hlast. destruct (@visited_last M n idx k Hlast) as [Hl|Hl].
      * fold v in Hl. now rewrite (Hv_nth k Hk) in Hl.
      * fold v in Hl. rewrite Hidx_len in Hl.
        assert (HSk : count = S k) by (symmetry; rewrite Hlast; exact Hl).
        rewrite HSk, Nat2Z.inj_succ in Hcover.
        clear - Hcover Hge. nia.
Qed.

(** C1, amended.  For a text with more words than a window holds, the
    number of chunks follows the step of the windows: one chunk, plus one
    for every step of [max_chunk_size - overlap_size] words needed for a
    window to reach the end of the text, that is
    1 + ceil((wordCount - maxChunkWords) / (maxChunkWords - overlapWords));
    all chunks of the sequence carry the same [total_chunks]. *)
Theorem chunk_count_follows_window_step (self : DocumentChunker)
    (text id : str)
    (HO : (0 <= overlap_size self < max_chunk_size self)%Z)
    (Hn : (max_chunk_size self < len (split text))%Z) :
  exists cs,
    chunk_text self text id = Ok cs /\
    len cs =
      (1 + (len (split text) - max_chunk_size self
            + (max_chunk_size self - overlap_size self) - 1)
           / (max_chunk_size self - overlap_size self))%Z /\
    forall c c', In c cs -> In c' cs -> total_chunks c = total_chunks c'.
Proof.
  destruct (@chunk_text_overlapping self text id HO Hn) as [cs [Hcs [Hne Hall]]].
  exists cs. split; [exact Hcs|]. split.
  - destruct (length cs) as [|k] eqn:EL.
    { destruct cs; [congruence|discriminate]. }
    assert (Hlast : exists c, nth_error cs k = Some c).
    { destruct (nth_error cs k) eqn:En; [eauto|].
      apply nth_error_None in En. lia. }
    destruct Hlast as [c Hc].
    destruct (Hall k c Hc) as [_ [_ [_ [_ Hend]]]].
    specialize (Hend eq_refl).
    destruct k as [|j].
    { simpl in Hend. lia. }
    assert (Hprev : exists c', nth_error cs j = Some c').
    { destruct (nth_error cs j) eqn:En; [eauto|].
      apply nth_error_None in En. lia. }
    destruct Hprev as [c' Hc'].
    destruct (Hall j c' Hc') as [_ [_ [_ [Hin _]]]].
    specialize (Hin ltac:(lia)).
    unfold len at 1. rewrite EL.
    rewrite Nat2Z.inj_succ in Hend.
    clear - HO Hend Hin.
    rewrite <- (Z.div_unique
               (len (split text) - max_chunk_size self
                + (max_chunk_size self - overlap_size self) - 1)
               (max_chunk_size self - overlap_size self)
               (Z.succ (Z.of_nat j))
               (len (split text) - max_chunk_size self
                + (max_chunk_size self - overlap_size self) - 1
                - (max_chunk_size self - overlap_size self)
                  * Z.succ (Z.of_nat j))); lia.
  - intros c c' Hc Hc'.
    apply In_nth_error in Hc as [k Hk]. apply In_nth_error in Hc' as [k' Hk'].
    destruct (Hall k c Hk) as [_ [-> _]].
    destruct (Hall k' c' Hk') as [_ [-> _]]. reflexivity.
Qed.

Lemma chunk_count_follows_window_step_witness :
  exists cs,
    chunk_text small_chunker (lit "a b c d e") (lit "doc") = Ok cs /\
    len cs =
      (1 + (len (split (lit "a b c d e")) - max_chunk_size small_chunker
            + (max_chunk_size small_chunker - overlap_size small_chunker) - 1)
           / (max_chunk_size small_chunker - overlap_size small_chunker))%Z /\
    forall c c', In c cs -> In c' cs -> total_chunks c = total_chunks c'.
Proof.
  apply (@chunk_count_follows_window_step small_chunker (lit "a b c d e")
           (lit "doc")).
  - simpl. lia.
  - reflexivity.
Defined.

(** C7.  Chunk [k] starts at word offset [k * (maxChunkWords - overlapWords)]
    and takes up to [maxChunkWords] words; the window that reaches the end
    of the text is the last chunk, however short.  With the default sizes
    the 4500 words [word1 ... word4500] give two chunks: words 1 to 4000,
    and words 3801 to 4500. *)
Theorem chunk_windows_start_at_multiples_of_step (self : DocumentChunker)
    (text document_id : str)
    (Hsizes : (0 <= overlap_size self < max_chunk_size self)%Z)
    (Hlong : (max_chunk_size self < len (split text))%Z) :
  (exists cs,
     chunk_text self text document_id = Ok cs /\
     cs <> [] /\
     forall k c, nth_error cs k = Some c ->
       chunk_index c = Z.of_nat k /\
       content c =
         join (lit " ")
              (firstn (Z.to_nat (max_chunk_size self))
                 (skipn (k * Z.to_nat (max_chunk_size self - overlap_size self))
                        (split text))) /\
       ((S k < length cs)%nat ->
        Z.of_nat k * (max_chunk_size self - overlap_size self)
          + max_chunk_size self < len (split text))%Z /\
       (S k = length cs ->
        len (split text) <=
          Z.of_nat k * (max_chunk_size self - overlap_size self)
          + max_chunk_size self)%Z) /\
  split scenario_text = numbered_words 1 4500 /\
  chunk_text default_chunker scenario_text (lit "doc") =
    Ok [ {| chunk_id := lit "doc_chunk_0";
            content := join (lit " ") (numbered_words 1 4000);
            chunk_index := 0; total_chunks := 2 |};
         {| chunk_id := lit "doc_chunk_1";
            content := join (lit " ") (numbered_words 3801 700);
            chunk_index := 1; total_chunks := 2 |} ].
Proof.
  split; [|split].
  - destruct (@chunk_text_overlapping self text document_id Hsizes Hlong)
      as [cs [Hcs [Hne Hall]]].
    exists cs. split; [exact Hcs|]. split; [exact Hne|].
    intros k c Hc. destruct (Hall k c Hc) as [Hi [_ [Hcont [Hin Hlast]]]].
    auto.
  - apply split_join, words_are_words. vm_compute. reflexivity.
  - apply returns_chunks_eq. vm_compute. reflexivity.
Qed.

(* ------------------------------------------------------------------ *)
(** * Ingestion                                                        *)
(* ------------------------------------------------------------------ *)

Lemma insert_file_ok d r d' :
  insert_file d r = Ok d' ->
  files d' = files d ++ [r] /\ chunks d' = chunks d /\
  file_search d' = file_search d /\
  forall f, In f (files d) -> f_id f <> f_id r.
Proof.
  unfold insert_file.
  destruct (existsb _ (files d)) eqn:Ex; [discriminate|].
  intros H; inversion H; subst d'; clear H. simpl.
  repeat split. intros f Hf Eq.
  assert (existsb (fun f => PyStr.eqb (f_id f) (f_id r)) (files d) = true).
  { apply existsb_exists. exists f. split; [exact Hf|]. now apply eqb_eq. }
  congruence.
Qed.

Lemma insert_chunk_ok d r d' :
  insert_chunk d r = Ok d' ->
  files d' = files d /\ chunks d' = chunks d ++ [r] /\
  file_search d' = file_search d.
Proof.
  unfold insert_chunk.
  destruct (existsb _ (chunks d)); [discriminate|].
  intros H; inversion H; subst d'. simpl. auto.
Qed.

Lemma insert_fts_tables E d r :
  files (insert_fts E d r) = files d /\ chunks (insert_fts E d r) = chunks d.
Proof. unfold insert_fts. destruct (fts_insert_ok E r); simpl; auto. Qed.

Lemma insert_chunks_ok E d file_id name category tags cs d' :
  insert_chunks E d file_id name category tags cs = Ok d' ->
  files d' = files d /\
  chunks d' = chunks d ++ map (chunk_row_of file_id) cs.
Proof.
  revert d; induction cs as [|c cs IH]; intros d; simpl.
  - intros H; inversion H; subst. now rewrite app_nil_r.
  - destruct (insert_chunk d _) as [d1|e] eqn:E1; simpl; [|discriminate].
    intros H. apply IH in H as [Hf Hc].
    apply insert_chunk_ok in E1 as [Hf1 [Hc1 _]].
    destruct (insert_fts_tables E d1
                {| s_file_id := file_id; s_filename := name;
                   s_content := content c; s_category := or_empty category;
                   s_tags := json_dumps E (or_empty tags) |}) as [Hf2 Hc2].
    rewrite Hf, Hc, Hf2, Hc2, Hf1, Hc1, <- app_assoc. auto.
Qed.

(** What one call of [upload_file] does to the database: nothing, or one
    new document with the rows of its chunks. *)
Lemma upload_file_db E self ts p category tags description st :
  let st' := snd (upload_file E self ts p category tags description st) in
  st_db st' = st_db st \/
  exists row text cs,
    chunk_text (chunker self) text (f_id row) = Ok cs /\
    f_processed row = true /\
    f_chunk_count row = len cs /\
    (forall f, In f (files (st_db st)) -> f_id f <> f_id row) /\
    files (st_db st') = files (st_db st) ++ [row] /\
    chunks (st_db st') =
      chunks (st_db st) ++ map (chunk_row_of (f_id row)) cs.
Proof.
  unfold upload_file.
  destruct (st_fs st p) as [data|]; [|now left].
  destruct (extract_text_content E _ _ _) as [text|e]; simpl; [|now left].
  destruct (chunk_text (chunker self) text _) as [cs|e] eqn:Ecs; simpl;
    [|now left].
  destruct (insert_file (st_db st) _) as [d1|e] eqn:E1; simpl; [|now left].
  destruct (insert_chunks E d1 _ _ _ _ cs) as [d2|e] eqn:E2; simpl;
    [|now left].
  right.
  apply insert_file_ok in E1 as [Hf1 [Hc1 [_ Hfresh]]].
  apply insert_chunks_ok in E2 as [Hf2 Hc2].
  match type of Hf1 with _ = _ ++ [?r] => exists r, text, cs end.
  split; [exact Ecs|]. split; [reflexivity|]. split; [reflexivity|].
  split; [exact Hfresh|].
  rewrite Hf2, Hc2, Hf1, Hc1. auto.
Qed.

Lemma filter_none {A : Type} (f : A -> bool) l :
  (forall x, In x l -> f x = false) -> filter f l = [].
Proof.
  induction l as [|x l IH]; simpl; intros H; [reflexivity|].
  rewrite (H x) by now left. apply IH. intros y Hy. apply H. now right.
Qed.

Lemma filter_all {A : Type} (f : A -> bool) l :
  (forall x, In x l -> f x = true) -> filter f l = l.
Proof.
  induction l as [|x l IH]; simpl; intros H; [reflexivity|].
  rewrite (H x) by now left. f_equal. apply IH. intros y Hy. apply H. now right.
Qed.

Lemma new_rows_of_other file_id other cs :
  other <> file_id ->
  filter (fun c => PyStr.eqb (c_file_id c) other)
         (map (chunk_row_of file_id) cs) = [].
Proof.
  intros Hne. apply filter_none. intros r Hr.
  apply in_map_iff in Hr as [c [<- _]]. simpl.
  apply eqb_neq. congruence.
Qed.

Lemma new_rows_of_self file_id cs :
  filter (fun c => PyStr.eqb (c_file_id c) file_id)
         (map (chunk_row_of file_id) cs) = map (chunk_row_of file_id) cs.
Proof.
  apply filter_all. intros r Hr.
  apply in_map_iff in Hr as [c [<- _]]. simpl. apply eqb_refl.
Qed.

(** Adding a document with a new id and the rows of its chunks keeps the
    database consistent. *)
Lemma chunks_consistent_add d d' row cs :
  chunks_consistent d ->
  (forall f, In f (files d) -> f_id f <> f_id row) ->
  f_processed row = true ->
  f_chunk_count row = len cs ->
  map chunk_index cs = map Z.of_nat (seq 0 (length cs)) ->
  files d' = files d ++ [row] ->
  chunks d' = chunks d ++ map (chunk_row_of (f_id row)) cs ->
  chunks_consistent d'.
Proof.
  intros [Hown Hcount] Hfresh Hproc Hlen Hidx Hfiles Hchunks.
  assert (Hold : filter (fun c => PyStr.eqb (c_file_id c) (f_id row)) (chunks d)
                 = []).
  { apply filter_none. intros c Hc. apply eqb_neq.
    destruct (Hown c Hc) as [f [Hf Hid]]. rewrite <- Hid. now apply Hfresh. }
  split.
  - intros c Hc. rewrite Hchunks in Hc. rewrite Hfiles.
    apply in_app_or in Hc as [Hc|Hc].
    + destruct (Hown c Hc) as [f [Hf Hid]].
      exists f. split; [apply in_or_app; now left|exact Hid].
    + apply in_map_iff in Hc as [c0 [<- _]].
      exists row. split; [apply in_or_app; right; now left|reflexivity].
  - intros f Hf. rewrite Hfiles in Hf. unfold chunk_rows_of. rewrite Hchunks.
    rewrite filter_app.
    apply in_app_or in Hf as [Hf|[<-|[]]].
    + rewrite new_rows_of_other by now apply Hfresh.
      rewrite app_nil_r. apply (Hcount f Hf).
    + rewrite Hold, new_rows_of_self. simpl.
      split; [exact Hproc|].
      unfold len. rewrite length_map. split; [exact Hlen|].
      rewrite map_map. simpl. exact Hidx.
Qed.

Lemma chunks_consistent_empty : chunks_consistent empty_db.
Proof. split; simpl; intros ? []. Qed.

Lemma reachable_consistent E self st :
  reachable E self st -> chunks_consistent (st_db st).
Proof.
  induction 1 as [fs|st fs _ IH|st ts p category tags description _ IH].
  - apply chunks_consistent_empty.
  - exact IH.
  - destruct (upload_file_db E self ts p category tags description st)
      as [Hsame|[row [text [cs [Hcs [Hp [Hn [Hfresh [Hf Hc]]]]]]]]].
    + now rewrite Hsame.
    + eapply chunks_consistent_add; eauto using chunk_text_indices.
Qed.

(** C8.  In every state the file manager can reach, a document whose record
    has [processed] set has as many chunk rows as its [chunk_count] says,
    and their indices are 0, 1, ..., [chunk_count - 1], each once. *)
Theorem chunk_count_matches_chunk_rows (E : World) (self : FileManager)
    (st : state) (f : file_row)
    (Hreach : reachable E self st)
    (Hfile : In f (files (st_db st)))
    (Hprocessed : f_processed f = true) :
  f_chunk_count f = len (chunk_rows_of (st_db st) (f_id f)) /\
  map c_chunk_index (chunk_rows_of (st_db st) (f_id f)) =
    map Z.of_nat (seq 0 (Z.to_nat (f_chunk_count f))).
Proof.
  destruct (reachable_consistent Hreach) as [_ Hcount].
  destruct (Hcount f Hfile) as [_ [Hn Hidx]].
  split; [exact Hn|].
  rewrite Hidx, Hn. unfold len. now rewrite Nat2Z.id.
Qed.

Lemma chunk_count_matches_chunk_rows_witness :
  f_chunk_count demo_note_row =
    len (chunk_rows_of (st_db demo_state) (f_id demo_note_row)) /\
  map c_chunk_index (chunk_rows_of (st_db demo_state) (f_id demo_note_row)) =
    map Z.of_nat (seq 0 (Z.to_nat (f_chunk_count demo_note_row))).
Proof.
  apply (@chunk_count_matches_chunk_rows demo_world demo_manager demo_state
           demo_note_row).
  - exact (reach_upload (lit "2025-01-01T00:00:00") (lit "note.txt")
             None None None (reach_init demo_world demo_manager demo_fs)).
  - left. reflexivity.
  - reflexivity.
Defined.

Lemma existsb_false_iff {A : Type} (f : A -> bool) l :
  existsb f l = false <-> forall x, In x l -> f x = false.
Proof.
  split.
  - intros H x Hx. destruct (f x) eqn:E; [|reflexivity].
    rewrite <- H. symmetry. apply existsb_exists. eauto.
  - intros H. destruct (existsb f l) eqn:E; [|reflexivity].
    apply existsb_exists in E as [x [Hx Hfx]]. rewrite (H x Hx) in Hfx.
    discriminate.
Qed.






Lemma chunk_windows_start_at_multiples_of_step_witness :
  (exists cs,
     chunk_text small_chunker (lit "a b c d e") (lit "doc") = Ok cs /\
     cs <> [] /\
     forall k c, nth_error cs k = Some c ->
       chunk_index c = Z.of_nat k /\
       content c =
         join (lit " ")
              (firstn (Z.to_nat (max_chunk_size small_chunker))
                 (skipn (k * Z.to_nat (max_chunk_size small_chunker
                                       - overlap_size small_chunker))
                        (split (lit "a b c d e")))) /\
       ((S k < length cs)%nat ->
        Z.of_nat k * (max_chunk_size small_chunker - overlap_size small_chunker)
          + max_chunk_size small_chunker < len (split (lit "a b c d e")))%Z /\
       (S k = length cs ->
        len (split (lit "a b c d e")) <=
          Z.of_nat k * (max_chunk_size small_chunker - overlap_size small_chunker)
          + max_chunk_size small_chunker)%Z) /\
  split scenario_text = numbered_words 1 4500 /\
  chunk_text default_chunker scenario_text (lit "doc") =
    Ok [ {| chunk_id := lit "doc_chunk_0";
            content := join (lit " ") (numbered_words 1 4000);
            chunk_index := 0; total_chunks := 2 |};
         {| chunk_id := lit "doc_chunk_1";
            content := join (lit " ") (numbered_words 3801 700);
            chunk_index := 1; total_chunks := 2 |} ].
Proof.
  apply (@chunk_windows_start_at_multiples_of_step small_chunker
           (lit "a b c d e") (lit "doc")).
  - simpl. lia.
  - reflexivity.
Defined.

(** C1, as stated, fails: with the default sizes a text of 8000 words is
    cut into three chunks (windows at words 0, 3800 and 7600), not into the
    two that the rounded-up quotient of 8000 by 4000 announces and that
    every chunk records as [total_chunks]. *)
Lemma chunk_text_count_is_not_rounded_quotient :
  split long_text = repeat (lit "w") 8000 /\
  ((8000 + max_chunk_size default_chunker - 1)
     / max_chunk_size default_chunker = 2)%Z /\
  chunk_text default_chunker long_text (lit "doc") =
    Ok [ {| chunk_id := lit "doc_chunk_0";
            content := join (lit " ") (repeat (lit "w") 4000);
            chunk_index := 0; total_chunks := 2 |};
         {| chunk_id := lit "doc_chunk_1";
            content := join (lit " ") (repeat (lit "w") 4000);
            chunk_index := 1; total_chunks := 2 |};
         {| chunk_id := lit "doc_chunk_2";
            content := join (lit " ") (repeat (lit "w") 400);
            chunk_index := 2; total_chunks := 2 |} ].
Proof.
  split; [|split].
  - apply split_join, words_are_words. vm_compute. reflexivity.
  - reflexivity.
  - apply returns_chunks_eq. vm_compute. reflexivity.
Qed.



(* ------------------------------------------------------------------ *)
(** * Further properties of the chunker                                *)
(* ------------------------------------------------------------------ *)

Lemma lit_inj a b : lit a = lit b -> a = b.
Proof.
  unfold lit. intros H.
  rewrite <- (string_of_list_ascii_of_string a),
          <- (string_of_list_ascii_of_string b).
  f_equal.
  revert H. generalize (list_ascii_of_string a) (list_ascii_of_string b).
  induction l as [|x l IH]; intros [|y l']; simpl; try discriminate;
    [reflexivity|].
  intros H. inversion H as [[Hxy Hl]].
  rewrite (IH _ Hl). f_equal.
  rewrite <- (ascii_N_embedding x), <- (ascii_N_embedding y). now f_equal.
Qed.

Lemma of_nat_inj n m : of_nat n = of_nat m -> n = m.
Proof.
  unfold of_nat. intros H. apply lit_inj in H.
  apply DecimalNat.Unsigned.to_uint_inj.
  apply (f_equal NilEmpty.uint_of_string) in H.
  rewrite !NilEmpty.usu in H. now inversion H.
Qed.

(** X1.  Whatever the sizes and the text, when [chunk_text] returns a list
    its [k]-th chunk has index [k] and the id [<document_id>_chunk_<k>]; the
    ids of the list are pairwise different. *)
Theorem chunk_text_numbers_its_chunks (self : DocumentChunker)
    (text document_id : str) (cs : list chunk)
    (H : chunk_text self text document_id = Ok cs) :
  (forall k c, nth_error cs k = Some c ->
     chunk_index c = Z.of_nat k /\
     chunk_id c = document_id ++ lit "_chunk_" ++ of_nat k) /\
  NoDup (map chunk_id cs).
Proof.
  assert (Hnth : forall k c, nth_error cs k = Some c ->
            chunk_index c = Z.of_nat k /\
            chunk_id c = document_id ++ lit "_chunk_" ++ of_nat k).
  { revert H. unfold chunk_text.
    destruct (len (split text) <=? max_chunk_size self)%Z.
    - intros H; inversion H; subst cs; clear H.
      intros [|[|k]] c Hc; simpl in Hc; try discriminate.
      inversion Hc; subst c. split; reflexivity.
    - destruct (max_chunk_size self =? 0)%Z; [discriminate|].
      destruct (py_range 0 (len (split text))
                  (max_chunk_size self - overlap_size self)) as [idx|e];
        simpl; [|discriminate].
      intros H; inversion H; subst cs; clear H.
      rewrite chunk_loop_windows. simpl.
      intros k c Hc.
      assert (Hk : (k < length (visited (max_chunk_size self)
                                  (len (split text)) idx))%nat).
      { erewrite <- window_chunks_length. apply nth_error_Some.
        rewrite Hc. discriminate. }
      apply (nth_error_nth _ _ c) in Hc.
      rewrite window_chunks_nth in Hc by exact Hk. subst c.
      split; reflexivity. }
  split; [exact Hnth|].
  apply NoDup_nth_error. intros i j Hi Hij.
  rewrite length_map in Hi.
  destruct (nth_error cs i) as [c|] eqn:Ei;
    [|apply nth_error_None in Ei; lia].
  rewrite (map_nth_error _ _ _ Ei) in Hij.
  destruct (nth_error cs j) as [c'|] eqn:Ej.
  - rewrite (map_nth_error _ _ _ Ej) in Hij. inversion Hij as [Hid].
    destruct (Hnth i c Ei) as [_ Hc]. destruct (Hnth j c' Ej) as [_ Hc'].
    rewrite Hc, Hc' in Hid.
    apply app_inv_head in Hid. apply app_inv_head in Hid.
    now apply of_nat_inj.
  - symmetry in Hij. apply nth_error_None in Ej.
    assert (nth_error (map chunk_id cs) j = None)
      by (apply nth_error_None; rewrite length_map; exact Ej).
    congruence.
Qed.

Lemma chunk_text_numbers_its_chunks_witness :
  (forall k c,
     nth_error
       [ {| chunk_id := lit "doc_chunk_0"; content := lit "a b c";
            chunk_index := 0; total_chunks := 2 |};
         {| chunk_id := lit "doc_chunk_1"; content := lit "c d e";
            chunk_index := 1; total_chunks := 2 |} ] k = Some c ->
     chunk_index c = Z.of_nat k /\
     chunk_id c = lit "doc" ++ lit "_chunk_" ++ of_nat k) /\
  NoDup (map chunk_id
       [ {| chunk_id := lit "doc_chunk_0"; content := lit "a b c";
            chunk_index := 0; total_chunks := 2 |};
         {| chunk_id := lit "doc_chunk_1"; content := lit "c d e";
            chunk_index := 1; total_chunks := 2 |} ]).
Proof.
  apply (@chunk_text_numbers_its_chunks small_chunker (lit "a b c d e")
           (lit "doc")).
  reflexivity.
Defined.

(** X2.  Sizes the constructor accepts but the loop cannot use: for a text
    with more words than [max_chunk_size], a window size of 0 raises
    [ZeroDivisionError]; otherwise an overlap equal to the window size
    raises [ValueError] (the step of the range is 0), and an overlap larger
    than the window size gives no chunk at all. *)
Theorem chunk_text_degenerate_sizes (self : DocumentChunker)
    (text document_id : str)
    (Hlong : (max_chunk_size self < len (split text))%Z) :
  (max_chunk_size self = 0%Z ->
   chunk_text self text document_id = Raise ZeroDivisionError) /\
  (max_chunk_size self <> 0%Z -> overlap_size self = max_chunk_size self ->
   chunk_text self text document_id = Raise ValueError) /\
  (max_chunk_size self <> 0%Z ->
   (max_chunk_size self < overlap_size self)%Z ->
   chunk_text self text document_id = Ok []).
Proof.
  unfold chunk_text.
  destruct (Z.leb_spec (len (split text)) (max_chunk_size self)); [lia|].
  split; [|split].
  - intros ->. reflexivity.
  - intros Hne Heq. destruct (Z.eqb_spec (max_chunk_size self) 0); [lia|].
    unfold py_range. rewrite Heq, Z.sub_diag. reflexivity.
  - intros Hne Hgt. destruct (Z.eqb_spec (max_chunk_size self) 0); [lia|].
    unfold py_range.
    destruct (Z.eqb_spec (max_chunk_size self - overlap_size self) 0); [lia|].
    destruct (Z.ltb_spec 0 (max_chunk_size self - overlap_size self)); [lia|].
    assert (Hq : ((0 - len (split text)
                   - (max_chunk_size self - overlap_size self) - 1)
                  / - (max_chunk_size self - overlap_size self) < 1)%Z).
    { apply Z.div_lt_upper_bound; unfold len in *; lia. }
    replace (Z.to_nat _) with 0%nat by lia. reflexivity.
Qed.

Lemma chunk_text_degenerate_sizes_witness :
  (max_chunk_size {| max_chunk_size := 2; overlap_size := 5 |} = 0%Z ->
   chunk_text {| max_chunk_size := 2; overlap_size := 5 |}
     (lit "a b c d e") (lit "doc") = Raise ZeroDivisionError) /\
  (max_chunk_size {| max_chunk_size := 2; overlap_size := 5 |} <> 0%Z ->
   overlap_size {| max_chunk_size := 2; overlap_size := 5 |} =
     max_chunk_size {| max_chunk_size := 2; overlap_size := 5 |} ->
   chunk_text {| max_chunk_size := 2; overlap_size := 5 |}
     (lit "a b c d e") (lit "doc") = Raise ValueError) /\
  (max_chunk_size {| max_chunk_size := 2; overlap_size := 5 |} <> 0%Z ->
   (max_chunk_size {| max_chunk_size := 2; overlap_size := 5 |}
    < overlap_size {| max_chunk_size := 2; overlap_size := 5 |})%Z ->
   chunk_text {| max_chunk_size := 2; overlap_size := 5 |}
     (lit "a b c d e") (lit "doc") = Ok []).
Proof.
  apply (@chunk_text_degenerate_sizes {| max_chunk_size := 2; overlap_size := 5 |}
           (lit "a b c d e") (lit "doc")).
  reflexivity.
Defined.

Lemma Forall_firstn_skipn {A : Type} (P : A -> Prop) (a b : nat) (l : list A) :
  Forall P l -> Forall P (firstn a (skipn b l)).
Proof.
  intros H.
  assert (Hs : Forall P (skipn b l)).
  { clear a. revert l H. induction b as [|b IH]; intros l H; [exact H|].
    destruct H; [constructor|]. simpl. now apply IH. }
  revert Hs. generalize (skipn b l). clear.
  induction a as [|a IH]; intros l H; [constructor|].
  destruct H; simpl; constructor; auto.
Qed.

(** The words of chunk [k], in positions of the text, for sizes with
    [0 <= overlap_size < max_chunk_size] and a text longer than a window. *)
Lemma chunk_window_words self text id :
  (0 <= overlap_size self < max_chunk_size self)%Z ->
  (max_chunk_size self < len (split text))%Z ->
  exists cs,
    chunk_text self text id = Ok cs /\
    forall k c, nth_error cs k = Some c ->
      split (content c) =
        firstn (Z.to_nat (max_chunk_size self))
          (skipn (k * Z.to_nat (max_chunk_size self - overlap_size self))
                 (split text)) /\
      (k * Z.to_nat (max_chunk_size self - overlap_size self)
         < length (split text))%nat /\
      ((S k < length cs)%nat ->
       (k * Z.to_nat (max_chunk_size self - overlap_size self)
          + Z.to_nat (max_chunk_size self) < length (split text))%nat) /\
      (S k = length cs ->
       (length (split text) <=
          k * Z.to_nat (max_chunk_size self - overlap_size self)
          + Z.to_nat (max_chunk_size self))%nat).
Proof.
  intros HO Hn.
  destruct (@chunk_text_overlapping self text id HO Hn) as [cs [Hcs [Hne Hall]]].
  exists cs. split; [exact Hcs|].
  assert (Hconv : forall k : nat,
            Z.of_nat (k * Z.to_nat (max_chunk_size self - overlap_size self)) =
            (Z.of_nat k * (max_chunk_size self - overlap_size self))%Z).
  { intros k. rewrite Nat2Z.inj_mul, Z2Nat.id by lia. reflexivity. }
  assert (Hinner : forall k c, nth_error cs k = Some c ->
            (S k < length cs)%nat ->
            (k * Z.to_nat (max_chunk_size self - overlap_size self)
               + Z.to_nat (max_chunk_size self) < length (split text))%nat).
  { intros k c Hc Hlt. destruct (Hall k c Hc) as [_ [_ [_ [Hin _]]]].
    specialize (Hin Hlt). unfold len in Hin.
    apply Nat2Z.inj_lt. rewrite Nat2Z.inj_add, Hconv, Z2Nat.id by lia.
    exact Hin. }
  intros k c Hc.
  destruct (Hall k c Hc) as [_ [_ [Hcont [_ Hlast]]]].
  split; [|split; [|split]].
  - rewrite Hcont. apply split_join, Forall_firstn_skipn, split_words.
  - destruct k as [|j].
    + simpl. unfold len in Hn. lia.
    + destruct (nth_error cs j) as [c'|] eqn:Ej.
      * assert (Hj : (S j < length cs)%nat).
        { apply nth_error_Some. rewrite Hc. discriminate. }
        pose proof (Hinner j c' Ej Hj).
        assert (Z.to_nat (max_chunk_size self - overlap_size self)
                <= Z.to_nat (max_chunk_size self))%nat by lia.
        simpl. lia.
      * apply nth_error_None in Ej.
        assert (S j < length cs)%nat
          by (apply nth_error_Some; rewrite Hc; discriminate).
        lia.
  - apply (Hinner k c Hc).
  - intros Hl. specialize (Hlast Hl). unfold len in Hlast.
    apply Nat2Z.inj_le. rewrite Nat2Z.inj_add, Hconv, Z2Nat.id by lia.
    exact Hlast.
Qed.

(** X3.  With [0 <= overlap_size < max_chunk_size], no word of a long text
    is lost: every word position of the text falls into the window of some
    chunk, and splitting that chunk's content gives the word back at its
    place in the window. *)
Theorem chunk_text_covers_every_word (self : DocumentChunker)
    (text document_id : str)
    (Hsizes : (0 <= overlap_size self < max_chunk_size self)%Z)
    (Hlong : (max_chunk_size self < len (split text))%Z) :
  exists cs,
    chunk_text self text document_id = Ok cs /\
    forall p w, nth_error (split text) p = Some w ->
      exists k c,
        nth_error cs k = Some c /\
        (k * Z.to_nat (max_chunk_size self - overlap_size self) <= p)%nat /\
        nth_error (split (content c))
          (p - k * Z.to_nat (max_chunk_size self - overlap_size self)) = Some w.
Proof.
  destruct (@chunk_window_words self text document_id Hsizes Hlong)
    as [cs [Hcs Hall]].
  destruct (@chunk_text_overlapping self text document_id Hsizes Hlong)
    as [cs' [Hcs' [Hne _]]].
  rewrite Hcs in Hcs'. inversion Hcs'; subst cs'; clear Hcs'.
  exists cs. split; [exact Hcs|].
  intros p w Hp.
  set (stepn := Z.to_nat (max_chunk_size self - overlap_size self)) in *.
  set (Mn := Z.to_nat (max_chunk_size self)) in *.
  assert (Hstep : (0 < stepn <= Mn)%nat) by (unfold stepn, Mn; lia).
  assert (Hplt : (p < length (split text))%nat).
  { apply nth_error_Some. rewrite Hp. discriminate. }
  assert (HL : (0 < length cs)%nat).
  { destruct cs; [congruence|simpl; lia]. }
  set (k := Nat.min (p / stepn) (length cs - 1)).
  assert (Hk : (k < length cs)%nat) by (unfold k; lia).
  destruct (nth_error cs k) as [c|] eqn:Ec;
    [|apply nth_error_None in Ec; lia].
  destruct (Hall k c Ec) as [Hw [_ [_ Hlast]]].
  assert (Hdiv : (stepn * (p / stepn) <= p < stepn * S (p / stepn))%nat).
  { split; [apply Nat.Div0.mul_div_le|apply Nat.mul_succ_div_gt; lia]. }
  assert (Hlo : (k * stepn <= p)%nat) by (unfold k; nia).
  assert (Hhi : (p < k * stepn + Mn)%nat).
  { destruct (Nat.le_gt_cases (p / stepn) (length cs - 1)) as [Hle|Hgt].
    - assert (k = (p / stepn)%nat) by (unfold k; lia). nia.
    - assert (S k = length cs) by (unfold k; lia).
      specialize (Hlast ltac:(assumption)). lia. }
  exists k, c. split; [exact Ec|]. split; [exact Hlo|].
  rewrite Hw, nth_error_firstn.
  destruct (Nat.ltb_spec (p - k * stepn) Mn); [|lia].
  rewrite nth_error_skipn.
  replace (k * stepn + (p - k * stepn))%nat with p by lia. exact Hp.
Qed.

Lemma chunk_text_covers_every_word_witness :
  exists cs,
    chunk_text small_chunker (lit "a b c d e") (lit "doc") = Ok cs /\
    forall p w, nth_error (split (lit "a b c d e")) p = Some w ->
      exists k c,
        nth_error cs k = Some c /\
        (k * Z.to_nat (max_chunk_size small_chunker
                       - overlap_size small_chunker) <= p)%nat /\
        nth_error (split (content c))
          (p - k * Z.to_nat (max_chunk_size small_chunker
                             - overlap_size small_chunker)) = Some w.
Proof.
  apply (@chunk_text_covers_every_word small_chunker (lit "a b c d e")
           (lit "doc")).
  - simpl. lia.
  - reflexivity.
Defined.

(** X4.  With [0 <= overlap_size < max_chunk_size], two consecutive chunks
    of a long text share exactly [overlap_size] words: what is left of a
    chunk after its first [max_chunk_size - overlap_size] words is the
    beginning of the next chunk, [overlap_size] words long. *)
Theorem consecutive_chunks_share_overlap (self : DocumentChunker)
    (text document_id : str)
    (Hsizes : (0 <= overlap_size self < max_chunk_size self)%Z)
    (Hlong : (max_chunk_size self < len (split text))%Z) :
  exists cs,
    chunk_text self text document_id = Ok cs /\
    forall k c c',
      nth_error cs k = Some c -> nth_error cs (S k) = Some c' ->
      skipn (Z.to_nat (max_chunk_size self - overlap_size self))
            (split (content c)) =
        firstn (Z.to_nat (overlap_size self)) (split (content c')) /\
      length (firstn (Z.to_nat (overlap_size self)) (split (content c'))) =
        Z.to_nat (overlap_size self).
Proof.
  destruct (@chunk_window_words self text document_id Hsizes Hlong)
    as [cs [Hcs Hall]].
  exists cs. split; [exact Hcs|].
  intros k c c' Hc Hc'.
  assert (Hk : (S k < length cs)%nat).
  { apply nth_error_Some. rewrite Hc'. discriminate. }
  destruct (Hall k c Hc) as [Hw [_ [Hfull _]]]. specialize (Hfull Hk).
  destruct (Hall (S k) c' Hc') as [Hw' _].
  set (stepn := Z.to_nat (max_chunk_size self - overlap_size self)) in *.
  set (Mn := Z.to_nat (max_chunk_size self)) in *.
  set (On := Z.to_nat (overlap_size self)).
  assert (HM : Mn = (stepn + On)%nat) by (unfold Mn, stepn, On; lia).
  assert (Hshared : firstn On (split (content c')) =
                    firstn On (skipn (S k * stepn) (split text))).
  { rewrite Hw', firstn_firstn. f_equal. lia. }
  split.
  - rewrite Hshared, Hw, skipn_firstn_comm, skipn_skipn.
    replace (Mn - stepn)%nat with On by lia. reflexivity.
  - rewrite Hshared, length_firstn, length_skipn. simpl. lia.
Qed.

Lemma consecutive_chunks_share_overlap_witness :
  exists cs,
    chunk_text small_chunker (lit "a b c d e") (lit "doc") = Ok cs /\
    forall k c c',
      nth_error cs k = Some c -> nth_error cs (S k) = Some c' ->
      skipn (Z.to_nat (max_chunk_size small_chunker
                       - overlap_size small_chunker))
            (split (content c)) =
        firstn (Z.to_nat (overlap_size small_chunker)) (split (content c')) /\
      length (firstn (Z.to_nat (overlap_size small_chunker))
                (split (content c'))) =
        Z.to_nat (overlap_size small_chunker).
Proof.
  apply (@consecutive_chunks_share_overlap small_chunker (lit "a b c d e")
           (lit "doc")).
  - simpl. lia.
  - reflexivity.
Defined.

(** X5.  With [0 <= overlap_size < max_chunk_size], every chunk of a long
    text holds at least one word and at most [max_chunk_size] words, and
    every chunk but the last holds exactly [max_chunk_size] words. *)
Theorem chunk_word_counts (self : DocumentChunker) (text document_id : str)
    (Hsizes : (0 <= overlap_size self < max_chunk_size self)%Z)
    (Hlong : (max_chunk_size self < len (split text))%Z) :
  exists cs,
    chunk_text self text document_id = Ok cs /\
    forall k c, nth_error cs k = Some c ->
      (1 <= len (split (content c)) <= max_chunk_size self)%Z /\
      ((S k < length cs)%nat ->
       len (split (content c)) = max_chunk_size self).
Proof.
  destruct (@chunk_window_words self text document_id Hsizes Hlong)
    as [cs [Hcs Hall]].
  exists cs. split; [exact Hcs|].
  intros k c Hc.
  destruct (Hall k c Hc) as [Hw [Hstart [Hfull _]]].
  unfold len. rewrite Hw, length_firstn, length_skipn.
  split; [lia|]. intros Hk. specialize (Hfull Hk). lia.
Qed.

Lemma chunk_word_counts_witness :
  exists cs,
    chunk_text small_chunker (lit "a b c d e") (lit "doc") = Ok cs /\
    forall k c, nth_error cs k = Some c ->
      (1 <= len (split (content c)) <= max_chunk_size small_chunker)%Z /\
      ((S k < length cs)%nat ->
       len (split (content c)) = max_chunk_size small_chunker).
Proof.
  apply (@chunk_word_counts small_chunker (lit "a b c d e") (lit "doc")).
  - simpl. lia.
  - reflexivity.
Defined.

(* ------------------------------------------------------------------ *)
(** * Further properties of query sanitization                         *)
(* ------------------------------------------------------------------ *)

Lemma clean_search_query_chars q :
  Forall (fun d => is_clean d = true) (clean_search_query q).
Proof.
  rewrite clean_search_query_unfold.
  pose proof (strip_specials_clean q) as Hclean.
  destruct (kept_words q) as [|w ws] eqn:Ek; [exact Hclean|].
  rewrite <- Ek. unfold kept_words. apply filter_words_clean.
  (* the words come from the rewritten query, whose characters are clean *)
  exact Hclean.
Qed.

(** X6.  The cleaned query contains none of the characters the function
    rewrites: no quote, question mark, parenthesis, bracket, brace, star,
    plus or hyphen. *)
Theorem clean_search_query_has_no_special_character (q : str) :
  Forall (fun c => ~ In c (removed_chars ++ [c_minus])) (clean_search_query q).
Proof.
  pose proof (clean_search_query_chars q) as H.
  rewrite Forall_forall in *. intros c Hc Hbad.
  pose proof (is_clean_true c (H c Hc) Hbad) as Hne.
  rewrite N.eqb_refl in Hne. discriminate.
Qed.

(** X7.  The cleaned query has one of two shapes: either none of its words
    has two characters or more (no word was kept and the rewritten query is
    returned as it is), or it is its own words joined by single spaces and
    every one of them has at least two characters. *)
Theorem clean_search_query_shape (q : str) :
  (forall w, In w (split (clean_search_query q)) -> (len w < 2)%Z) \/
  (clean_search_query q = join (lit " ") (split (clean_search_query q)) /\
   forall w, In w (split (clean_search_query q)) -> (2 <= len w)%Z).
Proof.
  rewrite clean_search_query_unfold.
  destruct (kept_words q) as [|w0 ws] eqn:Ek.
  - left. intros w Hw.
    destruct (Z.ltb_spec (len w) 2) as [Hlt|Hge]; [exact Hlt|].
    assert (Hin : In w (kept_words q)).
    { unfold kept_words. apply filter_In. split; [exact Hw|].
      now apply Z.leb_le. }
    rewrite Ek in Hin. contradiction.
  - right. rewrite <- Ek.
    assert (Hs : split (join (lit " ") (kept_words q)) = kept_words q).
    { unfold kept_words.
      apply split_join, Forall_filter, split_words. }
    rewrite Hs. split; [reflexivity|].
    intros w Hw. unfold kept_words in Hw. apply filter_In in Hw as [_ Hw].
    now apply Z.leb_le.
Qed.

Lemma lstrip_all_space s :
  Forall (fun c => isspace c = true) s -> lstrip s = [].
Proof. induction 1 as [|c s Hc _ IH]; simpl; [reflexivity|now rewrite Hc]. Qed.

Lemma strip_all_space s :
  Forall (fun c => isspace c = true) s -> strip s = [].
Proof. intros H. unfold strip. now rewrite (lstrip_all_space H). Qed.

Lemma split_all_space s :
  Forall (fun c => isspace c = true) s -> split s = [].
Proof. induction 1 as [|c s Hc _ IH]; simpl; [reflexivity|now rewrite Hc]. Qed.

Lemma strip_specials_blank q :
  Forall (fun c => is_clean c = false \/ isspace c = true) q ->
  Forall (fun c => isspace c = true) (strip_specials q).
Proof.
  induction 1 as [|c q Hc _ IH]; [constructor|].
  rewrite strip_specials_cons. apply Forall_app. split; [|exact IH].
  destruct (is_clean c) eqn:E.
  - rewrite (proj2 (strip_specials_one c) E).
    destruct Hc as [Hc|Hc]; [discriminate|]. now constructor.
  - apply is_clean_false in E. simpl in E.
    repeat (destruct E as [<-|E]; [vm_compute; repeat constructor|]).
    contradiction.
Qed.

(** X8.  A query made only of characters the cleaner deletes, hyphens and
    white space never reaches the index: [search_files] runs the substring
    (LIKE) statement on the original query and nothing else. *)
Theorem search_files_symbols_only_uses_like (E : World) (d : db) (q : str)
    (category file_type : option str)
    (H : Forall (fun c => is_clean c = false \/ isspace c = true) q) :
  search_files E d q category file_type =
    fallback_search E d q category file_type /\
  fst (search_files E d q category file_type) =
    [LikeSearch (like_pattern q) (truthy category) (truthy file_type)].
Proof.
  assert (Hs : search_files E d q category file_type =
               fallback_search E d q category file_type).
  { apply search_files_of_fallback. unfold search_files_try.
    pose proof (strip_specials_blank H) as Hblank.
    replace (strip (clean_search_query q)) with (@nil char); [reflexivity|].
    symmetry. rewrite clean_search_query_unfold.
    unfold kept_words. rewrite (split_all_space Hblank). simpl.
    now apply strip_all_space. }
  split; [exact Hs|now rewrite Hs].
Qed.

Lemma search_files_symbols_only_uses_like_witness :
  search_files demo_world empty_db (lit "-( )- ?") None None =
    fallback_search demo_world empty_db (lit "-( )- ?") None None /\
  fst (search_files demo_world empty_db (lit "-( )- ?") None None) =
    [LikeSearch (like_pattern (lit "-( )- ?")) None None].
Proof.
  apply (@search_files_symbols_only_uses_like demo_world empty_db
           (lit "-( )- ?") None None).
  repeat constructor; (left; reflexivity) || (right; reflexivity).
Defined.

(* ------------------------------------------------------------------ *)
(** * Further properties of the search orchestrator                    *)
(* ------------------------------------------------------------------ *)

Lemma search_files_try_indexed E d q category file_type :
  strip (clean_search_query q) <> [] ->
  has_any azerbaijani_chars q = false ->
  has_any special_chars q = false ->
  search_files_try E d q category file_type =
  match fts_select E d (clean_search_query q) (truthy category)
          (truthy file_type) with
  | Ok rows =>
      ([FtsMatch (clean_search_query q) (truthy category) (truthy file_type)],
       Ok (map hit_of_row rows))
  | Raise _ =>
      (FtsMatch (clean_search_query q) (truthy category) (truthy file_type)
         :: fst (fallback_search E d q category file_type),
       snd (fallback_search E d q category file_type))
  end.
Proof.
  intros Hne Ha Hs. unfold search_files_try.
  destruct (strip (clean_search_query q)); [congruence|].
  rewrite Ha, Hs. simpl orb. cbv iota.
  destruct (fts_select E d (clean_search_query q) (truthy category)
              (truthy file_type)); reflexivity.
Qed.

(** X9.  A query with none of the listed characters, whose cleaned form is
    not blank, is answered by the index when the index accepts it: one
    MATCH statement on the cleaned query, and its rows as the hits. *)
Theorem search_files_plain_query_uses_index (E : World) (d : db) (q : str)
    (category file_type : option str) (rows : list search_row)
    (Hclean : strip (clean_search_query q) <> [])
    (Haz : has_any azerbaijani_chars q = false)
    (Hsp : has_any special_chars q = false)
    (Hfts : fts_select E d (clean_search_query q) (truthy category)
              (truthy file_type) = Ok rows) :
  search_files E d q category file_type =
    ([FtsMatch (clean_search_query q) (truthy category) (truthy file_type)],
     Ok (map hit_of_row rows)).
Proof.
  unfold search_files.
  rewrite (@search_files_try_indexed E d q category file_type Hclean Haz Hsp).
  now rewrite Hfts.
Qed.

Lemma search_files_plain_query_uses_index_witness :
  search_files demo_world empty_db (lit "annual-report 2024") None None =
    ([FtsMatch (clean_search_query (lit "annual-report 2024")) None None],
     Ok (map hit_of_row [])).
Proof.
  apply (@search_files_plain_query_uses_index demo_world empty_db
           (lit "annual-report 2024") None None []).
  - discriminate.
  - reflexivity.
  - reflexivity.
  - reflexivity.
Defined.

(** X10.  When the index rejects the cleaned query, [search_files] falls
    back to the substring (LIKE) statement on the original query: it runs
    the two statements in this order and returns what [fallback_search]
    returns, which is the empty list when the substring statement fails
    too. *)
Theorem search_files_index_error_falls_back (E : World) (d : db) (q : str)
    (category file_type : option str) (e : exn)
    (Hclean : strip (clean_search_query q) <> [])
    (Haz : has_any azerbaijani_chars q = false)
    (Hsp : has_any special_chars q = false)
    (Hfts : fts_select E d (clean_search_query q) (truthy category)
              (truthy file_type) = Raise e) :
  fst (search_files E d q category file_type) =
    [ FtsMatch (clean_search_query q) (truthy category) (truthy file_type);
      LikeSearch (like_pattern q) (truthy category) (truthy file_type) ] /\
  snd (search_files E d q category file_type) =
    snd (fallback_search E d q category file_type) /\
  (forall e', like_select E d (like_pattern q) (truthy category)
                (truthy file_type) = Raise e' ->
              snd (search_files E d q category file_type) = Ok []).
Proof.
  assert (Hs : search_files E d q category file_type =
               (FtsMatch (clean_search_query q) (truthy category)
                  (truthy file_type)
                  :: fst (fallback_search E d q category file_type),
                snd (fallback_search E d q category file_type))).
  { unfold search_files.
    rewrite (@search_files_try_indexed E d q category file_type Hclean Haz Hsp).
    rewrite Hfts.
    destruct (fallback_search_returns E d q category file_type) as [hits Hh].
    now rewrite Hh. }
  rewrite Hs. split; [reflexivity|]. split; [reflexivity|].
  intros e' Hlike. unfold fallback_search. simpl. now rewrite Hlike.
Qed.

Lemma search_files_index_error_falls_back_witness :
  fst (search_files faulty_world empty_db (lit "annual report") None None) =
    [ FtsMatch (clean_search_query (lit "annual report")) None None;
      LikeSearch (like_pattern (lit "annual report")) None None ] /\
  snd (search_files faulty_world empty_db (lit "annual report") None None) =
    snd (fallback_search faulty_world empty_db (lit "annual report") None None) /\
  (forall e', like_select faulty_world empty_db
                (like_pattern (lit "annual report")) None None = Raise e' ->
              snd (search_files faulty_world empty_db (lit "annual report")
                     None None) = Ok []).
Proof.
  apply (@search_files_index_error_falls_back faulty_world empty_db
           (lit "annual report") None None OperationalError).
  - discriminate.
  - reflexivity.
  - reflexivity.
  - reflexivity.
Defined.

Lemma truthy_idempotent o : truthy (truthy o) = truthy o.
Proof. destruct o as [[|c s]|]; reflexivity. Qed.

(** X11.  An empty string as category or file type is no filter at all:
    [search_files] and [fallback_search] treat it as they treat a missing
    argument. *)
Theorem search_files_ignores_empty_filters (E : World) (d : db) (q : str)
    (category file_type : option str) :
  search_files E d q category file_type =
    search_files E d q (truthy category) (truthy file_type) /\
  fallback_search E d q category file_type =
    fallback_search E d q (truthy category) (truthy file_type) /\
  truthy (Some []) = None.
Proof.
  assert (Hf : fallback_search E d q category file_type =
               fallback_search E d q (truthy category) (truthy file_type)).
  { unfold fallback_search. now rewrite !truthy_idempotent. }
  split; [|split; [exact Hf|reflexivity]].
  unfold search_files, search_files_try.
  rewrite !truthy_idempotent, <- Hf. reflexivity.
Qed.

(* ------------------------------------------------------------------ *)
(** * Further properties of text extraction                            *)
(* ------------------------------------------------------------------ *)

Lemma try_except_returns {A : Type} (body : result A) (dflt : A) :
  exists a, try_except body (fun _ => Ok dflt) = Ok a.
Proof. destruct body; simpl; eauto. Qed.

(** X12.  The routines for PDF, DOCX, Excel, HTML and Markdown never raise:
    whatever the file system and the parsers do, each returns a string. *)
Theorem structured_extractors_never_raise (E : World) (fs : filesystem)
    (p : path) :
  (exists t, extract_text_from_pdf E fs p = Ok t) /\
  (exists t, extract_text_from_docx E fs p = Ok t) /\
  (exists t, extract_text_from_excel E fs p = Ok t) /\
  (exists t, extract_text_from_html E fs p = Ok t) /\
  (exists t, extract_text_from_md E fs p = Ok t).
Proof.
  repeat split; apply try_except_returns.
Qed.

Lemma pdf_pages_text_failing pages text e :
  In (Raise e) pages -> exists e', pdf_pages_text pages text = Raise e'.
Proof.
  revert text; induction pages as [|pg pages IH]; intros text; [contradiction|].
  intros [->|Hin]; simpl; [eauto|].
  destruct pg as [t|e0]; simpl; [apply IH, Hin|eauto].
Qed.

Lemma pdf_pages_text_all_ok texts text :
  pdf_pages_text (map Ok texts) text =
    Ok (text ++ flat_map (fun t => t ++ nl) texts).
Proof.
  revert text; induction texts as [|t texts IH]; intros text; simpl.
  - now rewrite app_nil_r.
  - rewrite IH. now rewrite <- !app_assoc.
Qed.

(** X13.  A PDF is all or nothing: when every page can be extracted the
    text is the pages in order, each followed by a newline; when one page
    fails, the text of the whole document is the empty string. *)
Theorem extract_text_from_pdf_all_or_nothing (E : World) (fs : filesystem)
    (p : path) (data : bytes) (pages : list (result str))
    (Hfile : fs p = Some data)
    (Hread : PdfReader_pages E data = Ok pages) :
  (forall texts, pages = map Ok texts ->
     extract_text_from_pdf E fs p = Ok (flat_map (fun t => t ++ nl) texts)) /\
  (forall e, In (Raise e) pages -> extract_text_from_pdf E fs p = Ok []).
Proof.
  unfold extract_text_from_pdf, open_read_bytes. rewrite Hfile. simpl.
  rewrite Hread. simpl. split.
  - intros texts ->. now rewrite pdf_pages_text_all_ok.
  - intros e He. destruct (@pdf_pages_text_failing pages [] e He) as [e' ->].
    reflexivity.
Qed.

Lemma extract_text_from_pdf_all_or_nothing_witness :
  (forall texts,
     [Ok (lit "page one"); Raise (LibraryError "extract_text")] = map Ok texts ->
     extract_text_from_pdf faulty_world faulty_fs (lit "scan.pdf") =
       Ok (flat_map (fun t => t ++ nl) texts)) /\
  (forall e,
     In (Raise e) [Ok (lit "page one"); Raise (LibraryError "extract_text")] ->
     extract_text_from_pdf faulty_world faulty_fs (lit "scan.pdf") = Ok []).
Proof.
  apply (@extract_text_from_pdf_all_or_nothing faulty_world faulty_fs
           (lit "scan.pdf") [37; 80; 68; 70]%N).
  - reflexivity.
  - reflexivity.
Defined.

(** X14.  For a file that exists the plain-text routine never raises: it
    returns the UTF-8 reading when the bytes decode as UTF-8, else the
    Windows-1251 reading when they decode as that, else the empty string. *)
Theorem extract_text_from_txt_decoding (E : World) (fs : filesystem)
    (p : path) (data : bytes)
    (Hfile : fs p = Some data) :
  extract_text_from_txt E fs p =
    Ok match decode_utf8 E data with
       | Some s => s
       | None => match decode_cp1251 E data with
                 | Some s => s
                 | None => []
                 end
       end.
Proof.
  unfold extract_text_from_txt, open_read_text, open_read_bytes.
  rewrite Hfile. simpl.
  destruct (decode_utf8 E data); [reflexivity|]. simpl.
  destruct (decode_cp1251 E data); reflexivity.
Qed.

Lemma extract_text_from_txt_decoding_witness :
  extract_text_from_txt faulty_world faulty_fs (lit "latin.txt") =
    Ok match decode_utf8 faulty_world [200; 201]%N with
       | Some s => s
       | None => match decode_cp1251 faulty_world [200; 201]%N with
                 | Some s => s
                 | None => []
                 end
       end.
Proof.
  apply (@extract_text_from_txt_decoding faulty_world faulty_fs
           (lit "latin.txt") [200; 201]%N).
  reflexivity.
Defined.

Lemma dict_get_skip {V : Type} (k' : str) (v : V) d k dflt :
  k <> k' -> dict_get ((k', v) :: d) k dflt = dict_get d k dflt.
Proof.
  intros Hne. simpl.
  replace (PyStr.eqb k' k) with false; [reflexivity|].
  symmetry. apply eqb_neq. congruence.
Qed.

Lemma dict_get_cons {V : Type} (k' : str) (v : V) d k dflt :
  dict_get ((k', v) :: d) k dflt =
  if PyStr.eqb k' k then v else dict_get d k dflt.
Proof. reflexivity. Qed.

(** X15.  Only five type names have a routine of their own.  Every other
    type name - [text], but also [doc], [json], [xml], [unknown] and any
    string that is no type at all - is read by the plain-text routine. *)
Theorem extract_text_content_defaults_to_txt (E : World) (fs : filesystem)
    (p : path) (file_type : str)
    (H : ~ In file_type
           [lit "pdf"; lit "docx"; lit "excel"; lit "html"; lit "markdown"]) :
  extract_text_content E fs p file_type = extract_text_from_txt E fs p.
Proof.
  unfold extract_text_content.
  assert (Hne : forall k,
            In k [lit "pdf"; lit "docx"; lit "excel"; lit "html"; lit "markdown"] ->
            file_type <> k).
  { intros k Hk ->. exact (H Hk). }
  rewrite !dict_get_skip by (apply Hne; simpl; tauto).
  rewrite dict_get_cons.
  destruct (PyStr.eqb (lit "text") file_type); [reflexivity|].
  rewrite !dict_get_skip by (apply Hne; simpl; tauto).
  reflexivity.
Qed.

Lemma extract_text_content_defaults_to_txt_witness :
  extract_text_content demo_world demo_fs (lit "note.txt") (lit "json") =
    extract_text_from_txt demo_world demo_fs (lit "note.txt").
Proof.
  apply (@extract_text_content_defaults_to_txt demo_world demo_fs
           (lit "note.txt") (lit "json")).
  simpl. intros [H|[H|[H|[H|[H|[]]]]]]; discriminate H.
Defined.

Lemma dict_get_in {V : Type} (d : list (str * V)) k dflt :
  In (dict_get d k dflt) (dflt :: map snd d).
Proof.
  induction d as [|[k' v] d IH]; simpl; [now left|].
  destruct (PyStr.eqb k' k); [right; now left|].
  destruct IH as [IH|IH]; [now left|right; now right].
Qed.

(** X16.  Whatever the path, [detect_file_type] answers with one of ten
    names; a path whose lower-cased suffix is not in the table is
    [unknown]. *)
Theorem detect_file_type_range (E : World) (file_path : path) :
  In (detect_file_type E file_path)
     [ lit "unknown"; lit "pdf"; lit "docx"; lit "doc"; lit "excel";
       lit "text"; lit "markdown"; lit "html"; lit "json"; lit "xml" ] /\
  (~ In (str_lower E (path_suffix E file_path)) (map fst type_mapping) ->
   detect_file_type E file_path = lit "unknown").
Proof.
  split.
  - pose proof (dict_get_in type_mapping
                  (str_lower E (path_suffix E file_path)) (lit "unknown")) as H.
    unfold detect_file_type. simpl in H |- *.
    repeat (destruct H as [<-|H]; [simpl; tauto|]). contradiction.
  - intros Hno. unfold detect_file_type.
    generalize dependent (str_lower E (path_suffix E file_path)).
    intros ext Hno. unfold type_mapping in *.
    rewrite !dict_get_skip; [reflexivity| | | | | | | | | | |];
      intros ->; apply Hno; simpl; tauto.
Qed.

Lemma join_two_has_separator sep (a b : str) (rest : list str) c :
  In c sep -> In c (join sep (a :: b :: rest)).
Proof.
  intros Hc. change (join sep (a :: b :: rest))
    with (a ++ sep ++ join sep (b :: rest)).
  apply in_or_app. right. apply in_or_app. now left.
Qed.

(** X17.  Which rows of a spreadsheet reach the sheet's text.  A row of
    two or more cells always yields a line, even when all its cells are
    empty: the separators between the cells make the line non-blank.  A row
    without cells yields no line.  A row of one cell yields a line exactly
    when the cell's text ([None] counts as the empty text) has a character
    that is not white space; so a one-cell row of blanks is skipped like an
    empty one. *)
Theorem excel_rows_with_two_cells_are_kept (text name : str)
    (cell1 cell2 : option str) (cells : list (option str)) :
  let header := text ++ lit "Sheet: " ++ name ++ nl in
  let cell_text := match cell1 with Some s => s | None => [] end in
  excel_sheet_text text (name, [cell1 :: cell2 :: cells]) =
    header ++ excel_row_text (cell1 :: cell2 :: cells) ++ nl ++ nl /\
  excel_sheet_text text (name, [[]; [None]]) = header ++ nl /\
  excel_sheet_text text (name, [[]]) = header ++ nl /\
  excel_sheet_text text (name, [[cell1]]) =
    header ++ match strip cell_text with
              | [] => []
              | _ :: _ => cell_text ++ nl
              end ++ nl /\
  excel_sheet_text text (name, [[Some (lit "  ")]]) = header ++ nl.
Proof.
  cbv zeta. split; [|split; [|split; [|split]]].
  - unfold excel_sheet_text. simpl fst. simpl snd. simpl fold_left.
    assert (Hbar : In 124%N (strip (excel_row_text (cell1 :: cell2 :: cells)))).
    { apply strip_keeps; [|reflexivity].
      unfold excel_row_text. simpl map.
      apply join_two_has_separator. simpl. tauto. }
    destruct (strip (excel_row_text (cell1 :: cell2 :: cells)));
      [contradiction|].
    repeat (progress (simpl; rewrite <- ?app_assoc)). reflexivity.
  - unfold excel_sheet_text.
    repeat (progress (simpl; rewrite <- ?app_assoc)). reflexivity.
  - unfold excel_sheet_text.
    repeat (progress (simpl; rewrite <- ?app_assoc)). reflexivity.
  - unfold excel_sheet_text. simpl fst. simpl snd.
    change (excel_row_text [cell1])
      with (match cell1 with Some s => s | None => [] end).
    cbn [fold_left].
    change (excel_row_text [cell1])
      with (match cell1 with Some s => s | None => [] end).
    destruct (strip match cell1 with Some s => s | None => [] end);
      rewrite <- ?app_assoc; reflexivity.
  - unfold excel_sheet_text.
    repeat (progress (simpl; rewrite <- ?app_assoc)). reflexivity.
Qed.

(* ------------------------------------------------------------------ *)
(** * Further properties of ingestion                                  *)
(* ------------------------------------------------------------------ *)

(** Every way a call of [upload_file] on an existing source can end. *)
Lemma upload_file_outcome E self ts p category tags description st data :
  st_fs st p = Some data ->
  let r := upload_file E self ts p category tags description st in
  st_fs (snd r) = fs_write (st_fs st) (storage_path_of E self ts p) data /\
  ((exists e, fst r = UploadFailure e /\ st_db (snd r) = st_db st) \/
   (exists text cs,
      extract_text_content E
        (fs_write (st_fs st) (storage_path_of E self ts p) data)
        (storage_path_of E self ts p) (detect_file_type E p) = Ok text /\
      chunk_text (chunker self) text
        (generate_file_id E ts (path_name E p)) = Ok cs /\
      ~ In (generate_file_id E ts (path_name E p)) (file_ids (st_db st)) /\
      fst r =
        UploadSuccess
          {| u_file_id := generate_file_id E ts (path_name E p);
             u_filename := path_name E p;
             u_file_type := detect_file_type E p;
             u_chunks := len cs |} /\
      files (st_db (snd r)) =
        files (st_db st) ++
        [uploaded_file_row E self ts p category tags description data (len cs)] /\
      chunks (st_db (snd r)) =
        chunks (st_db st) ++
        map (chunk_row_of (generate_file_id E ts (path_name E p))) cs)).
Proof.
  intros Hfile. unfold upload_file. rewrite Hfile.
  fold (storage_path_of E self ts p).
  destruct (extract_text_content E _ _ _) as [text|e] eqn:Eext; simpl;
    [|split; [reflexivity|left; eauto]].
  destruct (chunk_text (chunker self) text _) as [cs|e] eqn:Ecs; simpl;
    [|split; [reflexivity|left; eauto]].
  destruct (insert_file (st_db st) _) as [d1|e] eqn:E1; simpl;
    [|split; [reflexivity|left; eauto]].
  destruct (insert_chunks E d1 _ _ _ _ cs) as [d2|e] eqn:E2; simpl;
    [|split; [reflexivity|left; eauto]].
  split; [reflexivity|right].
  apply insert_file_ok in E1 as [Hf1 [Hc1 [_ Hfresh]]].
  apply insert_chunks_ok in E2 as [Hf2 Hc2].
  exists text, cs.
  split; [first [exact Eext|reflexivity]|].
  split; [first [exact Ecs|reflexivity]|].
  split.
  { unfold file_ids. intros Hin. apply in_map_iff in Hin as [f [Hid Hf]].
    exact (Hfresh f Hf Hid). }
  split; [reflexivity|].
  rewrite Hf2, Hc2, Hf1, Hc1. split; reflexivity.
Qed.

(** X18.  An upload that fails leaves the database exactly as it was: no
    document row, no chunk row, no index row.  When the source file does
    not exist, nothing at all changes and the error is
    [FileNotFoundError]. *)
Theorem upload_failure_keeps_database (E : World) (self : FileManager)
    (timestamp : str) (file_path : path) (category : option str)
    (tags : option (list str)) (description : option str) (st : state)
    (e : exn)
    (Hfail : fst (upload_file E self timestamp file_path category tags
                    description st) = UploadFailure e) :
  st_db (snd (upload_file E self timestamp file_path category tags
                description st)) = st_db st /\
  (st_fs st file_path = None ->
   upload_file E self timestamp file_path category tags description st =
     (UploadFailure FileNotFoundError, st)).
Proof.
  split.
  - destruct (st_fs st file_path) as [data|] eqn:Hfile.
    + destruct (@upload_file_outcome E self timestamp file_path category tags
                  description st data Hfile)
        as [_ [[e' [_ Hdb]]|[text [cs [_ [_ [_ [Hok _]]]]]]]].
      * exact Hdb.
      * rewrite Hok in Hfail. discriminate.
    + unfold upload_file. now rewrite Hfile.
  - intros Hnone. unfold upload_file. now rewrite Hnone.
Qed.

Lemma upload_failure_keeps_database_witness :
  st_db (snd (upload_file demo_world demo_manager (lit "2025-01-01T00:00:00")
                (lit "note.txt") None None None demo_state)) =
    st_db demo_state /\
  (st_fs demo_state (lit "note.txt") = None ->
   upload_file demo_world demo_manager (lit "2025-01-01T00:00:00")
     (lit "note.txt") None None None demo_state =
     (UploadFailure FileNotFoundError, demo_state)).
Proof.
  apply (@upload_failure_keeps_database demo_world demo_manager
           (lit "2025-01-01T00:00:00") (lit "note.txt") None None None
           demo_state IntegrityError).
  reflexivity.
Defined.







(* ------------------------------------------------------------------ *)
(** * Storing and reading back                                         *)
(* ------------------------------------------------------------------ *)

Lemma find_app_skip {A : Type} (f : A -> bool) l1 l2 :
  (forall x, In x l1 -> f x = false) -> find f (l1 ++ l2) = find f l2.
Proof.
  induction l1 as [|x l1 IH]; simpl; intros H; [reflexivity|].
  rewrite (H x) by now left. apply IH. intros y Hy. apply H. now right.
Qed.

Lemma find_chunk_row file_id cs a k c :
  map chunk_index cs = map Z.of_nat (seq a (length cs)) ->
  nth_error cs k = Some c ->
  find (fun r => PyStr.eqb (c_file_id r) file_id
                 && (c_chunk_index r =? Z.of_nat (a + k))%Z)
       (map (chunk_row_of file_id) cs) = Some (chunk_row_of file_id c).
Proof.
  revert a k; induction cs as [|c0 cs IH]; intros a k Hidx Hk.
  - destruct k; discriminate.
  - simpl in Hidx. injection Hidx as H0 Hrest. simpl.
    rewrite eqb_refl, H0. simpl.
    destruct k as [|k].
    + simpl in Hk. inversion Hk; subst c0.
      rewrite Nat.add_0_r, Z.eqb_refl. reflexivity.
    + simpl in Hk.
      destruct (Z.eqb_spec (Z.of_nat a) (Z.of_nat (a + S k))); [lia|].
      replace (a + S k)%nat with (S a + k)%nat by lia.
      now apply IH.
Qed.

Lemma order_by_index_sorted rows a :
  map c_chunk_index rows = map Z.of_nat (seq a (length rows)) ->
  order_by_index rows = rows.
Proof.
  revert a; induction rows as [|r rows IH]; intros a Hidx; [reflexivity|].
  simpl in Hidx. injection Hidx as H0 Hrest.
  unfold order_by_index in *. simpl. rewrite (IH (S a) Hrest).
  destruct rows as [|x rows]; [reflexivity|].
  simpl in Hrest. injection Hrest as Hx _. simpl.
  rewrite H0, Hx.
  replace (Z.of_nat a <? _)%Z with true; [reflexivity|].
  symmetry. apply Z.ltb_lt. lia.
Qed.

(** X21.  What was uploaded can be read back.  After a successful upload
    into a reachable state, the chunker's result on the text extracted from
    the stored copy is what [get_file_content] serves: chunk [k] by its
    index (an index SQLite can store), with the document's name, type and
    chunk count, and without an index the contents of all chunks in order,
    separated by blank lines. *)
Theorem upload_then_get_file_content (E : World) (self : FileManager)
    (timestamp : str) (file_path : path) (category : option str)
    (tags : option (list str)) (description : option str) (st st' : state)
    (info : upload_info)
    (Hreach : reachable E self st)
    (Hup : upload_file E self timestamp file_path category tags description st
           = (UploadSuccess info, st')) :
  exists text cs,
    extract_text_content E (st_fs st')
      (storage_path_of E self timestamp file_path) (u_file_type info)
      = Ok text /\
    chunk_text (chunker self) text (u_file_id info) = Ok cs /\
    u_chunks info = len cs /\
    (forall k c, nth_error cs k = Some c -> (Z.of_nat k < 2 ^ 63)%Z ->
       exists fc,
         get_file_content (st_db st') (u_file_id info) (Some (Z.of_nat k))
           = Ok (ContentFound fc) /\
         fc_content fc = content c /\
         fc_filename fc = u_filename info /\
         fc_file_type fc = u_file_type info /\
         fc_chunk_count fc = u_chunks info) /\
    (exists fc,
       get_file_content (st_db st') (u_file_id info) None
         = Ok (ContentFound fc) /\
       fc_content fc = join (nl ++ nl) (map content cs)).
Proof.
  destruct (st_fs st file_path) as [data|] eqn:Hfile;
    [|unfold upload_file in Hup; rewrite Hfile in Hup; discriminate].
  pose proof (@upload_file_outcome E self timestamp file_path category tags
                description st data Hfile) as Hout.
  cbv zeta in Hout. rewrite Hup in Hout. simpl fst in Hout. simpl snd in Hout.
  destruct Hout as [Hfs [[e [Hbad _]]|[text [cs [Hext [Hcs [Hfresh
                     [Hinfo [Hfiles Hchunks]]]]]]]]]; [discriminate|].
  injection Hinfo as ->.
  cbn [u_file_id u_filename u_file_type u_chunks].
  set (id := generate_file_id E timestamp (path_name E file_path)) in *.
  destruct (reachable_consistent Hreach) as [Hown _].
  assert (Hold_files : forall f, In f (files (st_db st)) ->
                                 PyStr.eqb (f_id f) id = false).
  { intros f Hf. apply eqb_neq. intros Heq. apply Hfresh.
    unfold file_ids. rewrite <- Heq. now apply in_map. }
  assert (Hold_chunks : forall c, In c (chunks (st_db st)) ->
                                  PyStr.eqb (c_file_id c) id = false).
  { intros c Hc. destruct (Hown c Hc) as [f [Hf Hid]].
    rewrite <- Hid. now apply Hold_files. }
  assert (Hfile_row :
            find (fun f => PyStr.eqb (f_id f) id) (files (st_db st')) =
            Some (uploaded_file_row E self timestamp file_path category tags
                    description data (len cs))).
  { rewrite Hfiles, find_app_skip by exact Hold_files.
    simpl. fold id. now rewrite eqb_refl. }
  exists text, cs.
  split; [now rewrite Hfs|]. split; [exact Hcs|]. split; [reflexivity|].
  split.
  - intros k c Hc Hk.
    unfold get_file_content.
    rewrite (proj2 (fits_sqlite_integer_iff (Z.of_nat k))) by lia.
    rewrite Hchunks, find_app_skip
      by (intros r Hr; now rewrite (Hold_chunks r Hr)).
    pose proof (@find_chunk_row id cs 0 k c
                  (chunk_text_indices _ _ _ Hcs) Hc) as Hfind.
    change (0 + k)%nat with k in Hfind. rewrite Hfind.
    cbn [bind]. rewrite Hfile_row. eexists. split; [reflexivity|].
    repeat split.
  - unfold get_file_content. cbn [bind]. rewrite Hfile_row.
    eexists. split; [reflexivity|].
    cbn [fc_content]. unfold chunk_rows_of. rewrite Hchunks, filter_app.
    rewrite (filter_none _ _ Hold_chunks), new_rows_of_self. simpl app.
    rewrite (@order_by_index_sorted _ 0).
    + now rewrite map_map.
    + rewrite map_map, length_map. simpl.
      exact (chunk_text_indices _ _ _ Hcs).
Qed.

Lemma upload_then_get_file_content_witness :
  exists text cs,
    extract_text_content demo_world (st_fs demo_state)
      (storage_path_of demo_world demo_manager (lit "2025-01-01T00:00:00")
         (lit "note.txt"))
      (u_file_type {| u_file_id := demo_note_id; u_filename := lit "note.txt";
                      u_file_type := lit "text"; u_chunks := 1 |})
      = Ok text /\
    chunk_text (chunker demo_manager) text
      (u_file_id {| u_file_id := demo_note_id; u_filename := lit "note.txt";
                    u_file_type := lit "text"; u_chunks := 1 |}) = Ok cs /\
    u_chunks {| u_file_id := demo_note_id; u_filename := lit "note.txt";
                u_file_type := lit "text"; u_chunks := 1 |} = len cs /\
    (forall k c, nth_error cs k = Some c -> (Z.of_nat k < 2 ^ 63)%Z ->
       exists fc,
         get_file_content (st_db demo_state)
           (u_file_id {| u_file_id := demo_note_id;
                         u_filename := lit "note.txt";
                         u_file_type := lit "text"; u_chunks := 1 |})
           (Some (Z.of_nat k)) = Ok (ContentFound fc) /\
         fc_content fc = content c /\
         fc_filename fc = lit "note.txt" /\
         fc_file_type fc = lit "text" /\
         fc_chunk_count fc = 1%Z) /\
    (exists fc,
       get_file_content (st_db demo_state)
         (u_file_id {| u_file_id := demo_note_id; u_filename := lit "note.txt";
                       u_file_type := lit "text"; u_chunks := 1 |}) None
         = Ok (ContentFound fc) /\
       fc_content fc = join (nl ++ nl) (map content cs)).
Proof.
  apply (@upload_then_get_file_content demo_world demo_manager
           (lit "2025-01-01T00:00:00") (lit "note.txt") None None None
           demo_start demo_state
           {| u_file_id := demo_note_id; u_filename := lit "note.txt";
              u_file_type := lit "text"; u_chunks := 1 |}).
  - apply reach_init.
  - reflexivity.
Defined.

(* ------------------------------------------------------------------ *)
(** * Primary keys                                                     *)
(* ------------------------------------------------------------------ *)

Lemma NoDup_snoc {A : Type} (l : list A) (x : A) :
  NoDup l -> ~ In x l -> NoDup (l ++ [x]).
Proof.
  induction 1 as [|y l Hy Hl IH]; intros Hx; simpl.
  - constructor; [intros []|constructor].
  - constructor.
    + intros Hin. apply in_app_or in Hin as [Hin|[->|[]]]; [auto|].
      apply Hx. now left.
    + apply IH. intros Hin. apply Hx. now right.
Qed.

Lemma existsb_false_not_in {A : Type} (key : A -> str) (l : list A) (id : str) :
  existsb (fun x => PyStr.eqb (key x) id) l = false -> ~ In id (map key l).
Proof.
  intros H Hin. apply in_map_iff in Hin as [x [Hid Hx]].
  rewrite existsb_false_iff in H. specialize (H x Hx).
  apply eqb_neq in H. congruence.
Qed.

Lemma insert_file_keys d r d' :
  insert_file d r = Ok d' ->
  NoDup (file_ids d) -> NoDup (file_ids d') /\ chunk_ids d' = chunk_ids d.
Proof.
  unfold insert_file, file_ids, chunk_ids.
  destruct (existsb _ (files d)) eqn:Ex; [discriminate|].
  intros H Hnd; inversion H; subst d'; simpl.
  rewrite map_app. split; [|reflexivity].
  apply NoDup_snoc; [exact Hnd|]. now apply existsb_false_not_in.
Qed.

Lemma insert_chunk_keys d r d' :
  insert_chunk d r = Ok d' ->
  NoDup (chunk_ids d) -> NoDup (chunk_ids d') /\ file_ids d' = file_ids d.
Proof.
  unfold insert_chunk, file_ids, chunk_ids.
  destruct (existsb _ (chunks d)) eqn:Ex; [discriminate|].
  intros H Hnd; inversion H; subst d'; simpl.
  rewrite map_app. split; [|reflexivity].
  apply NoDup_snoc; [exact Hnd|]. now apply existsb_false_not_in.
Qed.

Lemma insert_chunks_keys E d file_id name category tags cs d' :
  insert_chunks E d file_id name category tags cs = Ok d' ->
  NoDup (chunk_ids d) -> NoDup (chunk_ids d') /\ file_ids d' = file_ids d.
Proof.
  revert d; induction cs as [|c cs IH]; intros d; simpl.
  - intros H Hnd; inversion H; subst; auto.
  - destruct (insert_chunk d _) as [d1|e] eqn:E1; simpl; [|discriminate].
    intros H Hnd.
    destruct (insert_chunk_keys _ _ E1 Hnd) as [Hnd1 Hf1].
    destruct (insert_fts_tables E d1
                {| s_file_id := file_id; s_filename := name;
                   s_content := content c; s_category := or_empty category;
                   s_tags := json_dumps E (or_empty tags) |}) as [Hf2 Hc2].
    apply IH in H as [Hnd' Hf'].
    + split; [exact Hnd'|]. rewrite Hf'. unfold file_ids. now rewrite Hf2.
    + unfold chunk_ids. now rewrite Hc2.
Qed.

Lemma upload_file_keys E self ts p category tags description st :
  NoDup (file_ids (st_db st)) -> NoDup (chunk_ids (st_db st)) ->
  let st' := snd (upload_file E self ts p category tags description st) in
  NoDup (file_ids (st_db st')) /\ NoDup (chunk_ids (st_db st')).
Proof.
  intros Hf Hc. unfold upload_file.
  destruct (st_fs st p) as [data|]; [|simpl; auto].
  destruct (extract_text_content E _ _ _) as [text|e]; simpl; [|auto].
  destruct (chunk_text (chunker self) text _) as [cs|e]; simpl; [|auto].
  destruct (insert_file (st_db st) _) as [d1|e] eqn:E1; simpl; [|auto].
  destruct (insert_chunks E d1 _ _ _ _ cs) as [d2|e] eqn:E2; simpl; [|auto].
  destruct (insert_file_keys _ _ E1 Hf) as [Hf1 Hc1].
  rewrite <- Hc1 in Hc.
  destruct (insert_chunks_keys _ _ _ _ _ _ _ E2 Hc) as [Hc2 Hf2].
  rewrite Hf2. auto.
Qed.

(** X22.  The primary keys hold in every state a file manager can reach:
    no two document rows have the same id and no two chunk rows have the
    same id. *)
Theorem reachable_primary_keys_unique (E : World) (self : FileManager)
    (st : state)
    (Hreach : reachable E self st) :
  NoDup (file_ids (st_db st)) /\ NoDup (chunk_ids (st_db st)).
Proof.
  induction Hreach as [fs|st fs _ IH|st ts p category tags description _ IH].
  - split; constructor.
  - exact IH.
  - destruct IH as [Hf Hc]. now apply upload_file_keys.
Qed.

Lemma reachable_primary_keys_unique_witness :
  NoDup (file_ids (st_db demo_state)) /\ NoDup (chunk_ids (st_db demo_state)).
Proof.
  apply (@reachable_primary_keys_unique demo_world demo_manager demo_state).
  exact (reach_upload (lit "2025-01-01T00:00:00") (lit "note.txt")
           None None None (reach_init demo_world demo_manager demo_fs)).
Defined.

(** X23.  An id that is already in the files table is not stored a second
    time: an upload that generates it fails and the tables of the database
    stay as they were.  The storage directory does not stay as it was: the
    copy is written before the row is inserted, so when the source exists
    the storage path of this upload - the path of the earlier document's
    copy when name and timestamp are the same - holds the source's bytes
    afterwards, and nothing else on disk changes; when the source does not
    exist the disk is untouched. *)
Theorem upload_with_existing_id_fails (E : World) (self : FileManager)
    (timestamp : str) (file_path : path) (category : option str)
    (tags : option (list str)) (description : option str) (st : state)
    (Hdup : In (generate_file_id E timestamp (path_name E file_path))
               (file_ids (st_db st))) :
  (exists e,
     fst (upload_file E self timestamp file_path category tags description st)
       = UploadFailure e /\
     st_db (snd (upload_file E self timestamp file_path category tags
                   description st)) = st_db st) /\
  match st_fs st file_path with
  | Some data =>
      st_fs (snd (upload_file E self timestamp file_path category tags
                    description st))
        = fs_write (st_fs st) (storage_path_of E self timestamp file_path)
            data /\
      st_fs (snd (upload_file E self timestamp file_path category tags
                    description st))
            (storage_path_of E self timestamp file_path) = Some data
  | None =>
      st_fs (snd (upload_file E self timestamp file_path category tags
                    description st)) = st_fs st
  end.
Proof.
  destruct (st_fs st file_path) as [data|] eqn:Hfile.
  - destruct (@upload_file_outcome E self timestamp file_path category tags
                description st data Hfile)
      as [Hfs [[e [Hfail Hdb]]|[text [cs [_ [_ [Hfresh _]]]]]]].
    + split; [exists e; auto|]. split; [exact Hfs|].
      rewrite Hfs. unfold fs_write. now rewrite eqb_refl.
    + contradiction.
  - unfold upload_file. rewrite Hfile. split; [|reflexivity].
    exists FileNotFoundError. auto.
Qed.

Lemma upload_with_existing_id_fails_witness :
  (exists e,
     fst (upload_file demo_world demo_manager (lit "2025-01-01T00:00:00")
            (lit "note.txt") (Some (lit "again")) None None demo_state)
       = UploadFailure e /\
     st_db (snd (upload_file demo_world demo_manager
                   (lit "2025-01-01T00:00:00") (lit "note.txt")
                   (Some (lit "again")) None None demo_state))
       = st_db demo_state) /\
  match st_fs demo_state (lit "note.txt") with
  | Some data =>
      st_fs (snd (upload_file demo_world demo_manager
                    (lit "2025-01-01T00:00:00") (lit "note.txt")
                    (Some (lit "again")) None None demo_state))
        = fs_write (st_fs demo_state)
            (storage_path_of demo_world demo_manager
               (lit "2025-01-01T00:00:00") (lit "note.txt")) data /\
      st_fs (snd (upload_file demo_world demo_manager
                    (lit "2025-01-01T00:00:00") (lit "note.txt")
                    (Some (lit "again")) None None demo_state))
            (storage_path_of demo_world demo_manager
               (lit "2025-01-01T00:00:00") (lit "note.txt")) = Some data
  | None =>
      st_fs (snd (upload_file demo_world demo_manager
                    (lit "2025-01-01T00:00:00") (lit "note.txt")
                    (Some (lit "again")) None None demo_state))
        = st_fs demo_state
  end.
Proof.
  apply (@upload_with_existing_id_fails demo_world demo_manager
           (lit "2025-01-01T00:00:00") (lit "note.txt") (Some (lit "again"))
           None None demo_state).
  left. reflexivity.
Defined.

(* ------------------------------------------------------------------ *)
(** * Bulk upload                                                      *)
(* ------------------------------------------------------------------ *)

Lemma upload_file_row_count E self ts p category tags description st :
  let r := upload_file E self ts p category tags description st in
  match fst r with
  | UploadSuccess _ =>
      length (files (st_db (snd r))) = S (length (files (st_db st)))
  | UploadFailure _ => st_db (snd r) = st_db st
  end.
Proof.
  destruct (st_fs st p) as [data|] eqn:Hfile.
  - destruct (@upload_file_outcome E self ts p category tags description st
                data Hfile)
      as [_ [[e [Hfail Hdb]]|[text [cs [_ [_ [_ [Hok [Hfiles _]]]]]]]]];
      cbv zeta.
    + now rewrite Hfail.
    + rewrite Hok, Hfiles, length_app. simpl. lia.
  - unfold upload_file. now rewrite Hfile.
Qed.

Lemma bulk_loop_counts E self category entries results st :
  reachable E self st ->
  let out := bulk_loop E self category entries results st in
  reachable E self (snd out) /\
  (length (b_successful (fst out)) + length (b_failed (fst out))
   <= length (b_successful results) + length (b_failed results)
      + length entries)%nat /\
  (length (files (st_db (snd out))) + length (b_successful results)
   = length (files (st_db st)) + length (b_successful (fst out)))%nat.
Proof.
  revert results st; induction entries as [|[file_path ts] rest IH];
    intros results st Hreach; cbn [bulk_loop length].
  - simpl. repeat split; [exact Hreach|lia].
  - destruct (match st_fs st file_path with Some _ => true | None => false end
              && existsb (PyStr.eqb (str_lower E (path_suffix E file_path)))
                         supported_extensions).
    + pose proof (reach_upload ts file_path category None None Hreach) as Hnext.
      pose proof (upload_file_row_count E self ts file_path category None None
                    st) as Hrows.
      cbv zeta in Hrows.
      destruct (upload_file E self ts file_path category None None st)
        as [[info|e] st1]; simpl in Hnext, Hrows.
      * destruct (IH {| b_successful := b_successful results ++ [info];
                        b_failed := b_failed results |} st1 Hnext)
          as [Hr [Hle Heq]].
        cbn [b_successful b_failed] in Hle, Heq.
        rewrite length_app in Hle, Heq. simpl in Hle, Heq.
        split; [exact Hr|]. split; lia.
      * destruct (IH {| b_successful := b_successful results;
                        b_failed := b_failed results ++ [(file_path, e)] |}
                    st1 Hnext) as [Hr [Hle Heq]].
        cbn [b_successful b_failed] in Hle, Heq.
        rewrite length_app in Hle. simpl in Hle. rewrite Hrows in Heq.
        split; [exact Hr|]. split; lia.
    + destruct (IH results st Hreach) as [Hr [Hle Heq]].
      split; [exact Hr|]. split; lia.
Qed.

(** X24.  A bulk upload accounts for every file it tries: the total is the
    number of successes plus the number of failures, it never exceeds the
    number of paths the directory walk yields, the files table grows by
    exactly the number of successes, and the state it leaves is again one
    the file manager can reach (so the invariants of the database hold
    after it).  A directory that does not exist gives an error and changes
    nothing. *)
Theorem bulk_upload_counts (E : World) (self : FileManager)
    (entries : list (path * str)) (category : option str) (st : state)
    (Hreach : reachable E self st) :
  (exists details st',
     bulk_upload E self (Some entries) category st =
       (BulkDone (len (b_successful details) + len (b_failed details))
                 (len (b_successful details)) (len (b_failed details)) details,
        st') /\
     (len (b_successful details) + len (b_failed details) <= len entries)%Z /\
     len (files (st_db st')) =
       (len (files (st_db st)) + len (b_successful details))%Z /\
     reachable E self st') /\
  bulk_upload E self None category st =
    (BulkError (lit "Directory not found"), st).
Proof.
  split; [|reflexivity].
  unfold bulk_upload.
  pose proof (@bulk_loop_counts E self category entries
                {| b_successful := []; b_failed := [] |} st Hreach) as H.
  cbv zeta in H.
  destruct (bulk_loop E self category entries
              {| b_successful := []; b_failed := [] |} st) as [details st'].
  simpl in H. destruct H as [Hr [Hle Heq]].
  exists details, st'. split; [reflexivity|].
  unfold len. repeat split; [lia|lia|exact Hr].
Qed.

Lemma bulk_upload_counts_witness :
  (exists details st',
     bulk_upload demo_world demo_manager
       (Some [(lit "note.txt", lit "2025-01-01T00:00:00");
              (lit "missing.txt", lit "2025-01-01T00:00:01");
              (lit "empty.txt", lit "2025-01-01T00:00:02")]) None demo_start =
       (BulkDone (len (b_successful details) + len (b_failed details))
                 (len (b_successful details)) (len (b_failed details)) details,
        st') /\
     (len (b_successful details) + len (b_failed details) <=
      len [(lit "note.txt", lit "2025-01-01T00:00:00");
           (lit "missing.txt", lit "2025-01-01T00:00:01");
           (lit "empty.txt", lit "2025-01-01T00:00:02")])%Z /\
     len (files (st_db st')) =
       (len (files (st_db demo_start)) + len (b_successful details))%Z /\
     reachable demo_world demo_manager st') /\
  bulk_upload demo_world demo_manager None None demo_start =
    (BulkError (lit "Directory not found"), demo_start).
Proof.
  apply (@bulk_upload_counts demo_world demo_manager
           [(lit "note.txt", lit "2025-01-01T00:00:00");
            (lit "missing.txt", lit "2025-01-01T00:00:01");
            (lit "empty.txt", lit "2025-01-01T00:00:02")] None demo_start).
  apply reach_init.
Defined.

Lemma bulk_loop_skips E self category entries results st :
  (forall entry, In entry entries ->
     ~ In (str_lower E (path_suffix E (fst entry))) supported_extensions) ->
  bulk_loop E self category entries results st = (results, st).
Proof.
  induction entries as [|[file_path ts] rest IH]; intros H; [reflexivity|].
  cbn [bulk_loop].
  replace (existsb _ supported_extensions) with false.
  - rewrite andb_false_r. apply IH. intros entry He. apply H. now right.
  - symmetry. apply existsb_false_iff. intros x Hx. apply eqb_neq.
    intros Heq. apply (H (file_path, ts)); [now left|].
    simpl. now rewrite Heq.
Qed.

(** X25.  The bulk upload takes six extensions only.  Files with any other
    lower-cased suffix - among them [.htm], [.xls], [.doc], [.json] and
    [.xml], which [detect_file_type] does know - are passed over: when the
    walk yields nothing else, nothing is uploaded and the counts are 0. *)
Theorem bulk_upload_skips_other_extensions (E : World) (self : FileManager)
    (entries : list (path * str)) (category : option str) (st : state)
    (Hskip : forall entry, In entry entries ->
       ~ In (str_lower E (path_suffix E (fst entry))) supported_extensions) :
  bulk_upload E self (Some entries) category st =
    (BulkDone 0 0 0 {| b_successful := []; b_failed := [] |}, st) /\
  (forall ext, In ext [lit ".htm"; lit ".xls"; lit ".doc"; lit ".json"; lit ".xml"] ->
     ~ In ext supported_extensions /\ In ext (map fst type_mapping)).
Proof.
  split.
  - unfold bulk_upload.
    now rewrite (@bulk_loop_skips E self category entries _ st Hskip).
  - intros ext Hext. simpl in Hext.
    repeat (destruct Hext as [<-|Hext];
            [split; [simpl; intros H;
                     repeat (destruct H as [H|H]; [discriminate H|]);
                     contradiction
                    |simpl; tauto]|]).
    contradiction.
Qed.

Lemma bulk_upload_skips_other_extensions_witness :
  bulk_upload faulty_world demo_manager
    (Some [(lit "old.doc", lit "2025-01-01T00:00:00")]) None faulty_start =
    (BulkDone 0 0 0 {| b_successful := []; b_failed := [] |}, faulty_start) /\
  (forall ext, In ext [lit ".htm"; lit ".xls"; lit ".doc"; lit ".json"; lit ".xml"] ->
     ~ In ext supported_extensions /\ In ext (map fst type_mapping)).
Proof.
  apply (@bulk_upload_skips_other_extensions faulty_world demo_manager
           [(lit "old.doc", lit "2025-01-01T00:00:00")] None faulty_start).
  intros entry [<-|[]]. simpl.
  intros H. repeat (destruct H as [H|H]; [discriminate H|]). contradiction.
Defined.

(* ------------------------------------------------------------------ *)
(** * Reading any stored document                                      *)
(* ------------------------------------------------------------------ *)

Lemma find_some_of_in {A : Type} (f : A -> bool) l x :
  In x l -> f x = true -> exists y, find f l = Some y.
Proof.
  induction l as [|z l IH]; simpl; [contradiction|].
  intros Hin Hx. destruct (f z) eqn:Ez; [eauto|].
  destruct Hin as [->|Hin]; [congruence|auto].
Qed.

Lemma not_fits_sqlite_integer (i : Z) :
  (i < - 2 ^ 63 \/ 2 ^ 63 <= i)%Z -> fits_sqlite_integer i = false.
Proof.
  intros H. destruct (fits_sqlite_integer i) eqn:E; [|reflexivity].
  apply fits_sqlite_integer_iff in E. lia.
Qed.

(** X26.  With no chunk index, or with one SQLite can store (signed 64
    bits), [get_file_content] reports [File not found] exactly when no
    document row has the id, whatever chunk rows exist, and returns a
    successful result for every id of the files table.  With an index
    outside that range it raises [OverflowError], whatever the id. *)
Theorem get_file_content_error_iff_missing (d : db) (file_id : str)
    (chunk_index : option Z) :
  ((forall i, chunk_index = Some i -> (- 2 ^ 63 <= i < 2 ^ 63)%Z) ->
   (In file_id (file_ids d) ->
    exists fc, get_file_content d file_id chunk_index = Ok (ContentFound fc)) /\
   (~ In file_id (file_ids d) ->
    get_file_content d file_id chunk_index =
      Ok (ContentError (lit "File not found")))) /\
  (forall i, chunk_index = Some i -> (i < - 2 ^ 63 \/ 2 ^ 63 <= i)%Z ->
   get_file_content d file_id chunk_index = Raise OverflowError).
Proof.
  split.
  - intros Hrange.
    assert (Hcontent : exists content,
              get_file_content d file_id chunk_index =
              match find (fun f => PyStr.eqb (f_id f) file_id) (files d) with
              | Some file_info =>
                  Ok (ContentFound
                        {| fc_content := content;
                           fc_filename := f_filename file_info;
                           fc_file_type := f_file_type file_info;
                           fc_category := f_category file_info;
                           fc_description := f_description file_info;
                           fc_chunk_count := f_chunk_count file_info |})
              | None => Ok (ContentError (lit "File not found"))
              end).
    { unfold get_file_content. destruct chunk_index as [i|].
      - rewrite (proj2 (fits_sqlite_integer_iff i) (Hrange i eq_refl)).
        cbn [bind]. eauto.
      - cbn [bind]. eauto. }
    destruct Hcontent as [content ->]. unfold file_ids. split.
    + intros Hin. apply in_map_iff in Hin as [f [Hid Hf]].
      destruct (@find_some_of_in _ (fun f => PyStr.eqb (f_id f) file_id)
                  (files d) f Hf) as [y Hy]; [now apply eqb_eq|].
      rewrite Hy. eauto.
    + intros Hno.
      replace (find _ (files d)) with (@None file_row); [reflexivity|].
      symmetry. apply find_none_iff. intros f Hf. apply eqb_neq.
      intros Heq. apply Hno. rewrite <- Heq. now apply in_map.
  - intros i -> Hout. unfold get_file_content.
    now rewrite (@not_fits_sqlite_integer i Hout).
Qed.

Lemma find_unique_id d f :
  NoDup (file_ids d) -> In f (files d) ->
  find (fun g => PyStr.eqb (f_id g) (f_id f)) (files d) = Some f.
Proof.
  unfold file_ids. induction (files d) as [|g l IH]; simpl; [contradiction|].
  intros Hnd Hin. inversion Hnd as [|? ? Hg Hl]; subst.
  destruct (PyStr.eqb (f_id g) (f_id f)) eqn:Eg.
  - destruct Hin as [->|Hin]; [reflexivity|].
    apply eqb_eq in Eg. exfalso. apply Hg. rewrite Eg. now apply in_map.
  - destruct Hin as [->|Hin]; [rewrite eqb_refl in Eg; discriminate|auto].
Qed.

Lemma find_and_filter {A : Type} (p q : A -> bool) l :
  find (fun x => p x && q x) l = find q (filter p l).
Proof.
  induction l as [|x l IH]; simpl; [reflexivity|].
  destruct (p x); simpl; [|exact IH].
  destruct (q x); [reflexivity|exact IH].
Qed.

Lemma find_by_index rows a k :
  map c_chunk_index rows = map Z.of_nat (seq a (length rows)) ->
  find (fun r => (c_chunk_index r =? Z.of_nat (a + k))%Z) rows =
    nth_error rows k.
Proof.
  revert a k; induction rows as [|r rows IH]; intros a k Hidx.
  - destruct k; reflexivity.
  - simpl in Hidx. injection Hidx as H0 Hrest. simpl. rewrite H0.
    destruct k as [|k].
    + now rewrite Nat.add_0_r, Z.eqb_refl.
    + destruct (Z.eqb_spec (Z.of_nat a) (Z.of_nat (a + S k))); [lia|].
      replace (a + S k)%nat with (S a + k)%nat by lia.
      now apply IH.
Qed.

Lemma find_index_out_of_range rows k :
  map c_chunk_index rows = map Z.of_nat (seq 0 (length rows)) ->
  (k < 0 \/ len rows <= k)%Z ->
  find (fun r => (c_chunk_index r =? k)%Z) rows = None.
Proof.
  intros Hidx Hk. apply find_none_iff. intros r Hr.
  apply Z.eqb_neq. intros Heq.
  assert (Hin : In (c_chunk_index r) (map c_chunk_index rows))
    by now apply in_map.
  rewrite Hidx in Hin. apply in_map_iff in Hin as [j [Hj Hseq]].
  apply in_seq in Hseq. unfold len in Hk. lia.
Qed.

Lemma reachable_file_ids_unique E self st :
  reachable E self st -> NoDup (file_ids (st_db st)) /\ NoDup (chunk_ids (st_db st)).
Proof.
  induction 1 as [fs|st fs _ IH|st ts p category tags description _ IH].
  - split; constructor.
  - exact IH.
  - destruct IH as [Hf Hc]. now apply upload_file_keys.
Qed.

(** X27.  Every document of a reachable database can be read: without a
    chunk index [get_file_content] returns the contents of its chunks in
    index order, separated by blank lines; with the index of one of its
    chunks (an index SQLite can bind, that is below 2^63), that chunk's
    content; with any other index of the signed 64-bit range, the empty
    string - each time with the document's own name, type, category,
    description and chunk count.  An index outside the signed 64-bit range
    is not answered at all: binding it raises [OverflowError]. *)
Theorem stored_document_is_served (E : World) (self : FileManager)
    (st : state) (f : file_row)
    (Hreach : reachable E self st)
    (Hfile : In f (files (st_db st))) :
  let served content :=
    Ok (ContentFound
          {| fc_content := content; fc_filename := f_filename f;
             fc_file_type := f_file_type f; fc_category := f_category f;
             fc_description := f_description f;
             fc_chunk_count := f_chunk_count f |}) in
  get_file_content (st_db st) (f_id f) None =
    served (join (nl ++ nl)
              (map c_content (chunk_rows_of (st_db st) (f_id f)))) /\
  (forall k row,
     nth_error (chunk_rows_of (st_db st) (f_id f)) k = Some row ->
     (Z.of_nat k < 2 ^ 63)%Z ->
     get_file_content (st_db st) (f_id f) (Some (Z.of_nat k)) =
       served (c_content row)) /\
  (forall i, (- 2 ^ 63 <= i < 2 ^ 63)%Z ->
     (i < 0 \/ f_chunk_count f <= i)%Z ->
     get_file_content (st_db st) (f_id f) (Some i) = served []) /\
  (forall i, (i < - 2 ^ 63 \/ 2 ^ 63 <= i)%Z ->
     get_file_content (st_db st) (f_id f) (Some i) = Raise OverflowError).
Proof.
  destruct (reachable_file_ids_unique Hreach) as [Hnd _].
  destruct (reachable_consistent Hreach) as [_ Hcount].
  destruct (Hcount f Hfile) as [_ [Hn Hidx]].
  pose proof (@find_unique_id (st_db st) f Hnd Hfile) as Hfind.
  cbv zeta. unfold get_file_content.
  split; [|split; [|split]].
  - cbn [bind]. rewrite Hfind.
    now rewrite (@order_by_index_sorted _ 0 Hidx).
  - intros k row Hrow Hk63.
    rewrite (proj2 (fits_sqlite_integer_iff (Z.of_nat k))) by lia.
    cbn [bind]. rewrite Hfind.
    rewrite (find_and_filter (fun c => PyStr.eqb (c_file_id c) (f_id f))
               (fun c => (c_chunk_index c =? Z.of_nat k)%Z)).
    fold (chunk_rows_of (st_db st) (f_id f)).
    pose proof (@find_by_index _ 0 k Hidx) as Hk.
    change (0 + k)%nat with k in Hk. now rewrite Hk, Hrow.
  - intros i Hrange Hi.
    rewrite (proj2 (fits_sqlite_integer_iff i) Hrange).
    cbn [bind]. rewrite Hfind.
    rewrite (find_and_filter (fun c => PyStr.eqb (c_file_id c) (f_id f))
               (fun c => (c_chunk_index c =? i)%Z)).
    fold (chunk_rows_of (st_db st) (f_id f)).
    rewrite (@find_index_out_of_range _ i Hidx); [reflexivity|].
    rewrite <- Hn. exact Hi.
  - intros i Hout. now rewrite (@not_fits_sqlite_integer i Hout).
Qed.

Lemma stored_document_is_served_witness :
  let served content :=
    Ok (ContentFound
          {| fc_content := content; fc_filename := f_filename demo_note_row;
             fc_file_type := f_file_type demo_note_row;
             fc_category := f_category demo_note_row;
             fc_description := f_description demo_note_row;
             fc_chunk_count := f_chunk_count demo_note_row |}) in
  get_file_content (st_db demo_state) (f_id demo_note_row) None =
    served (join (nl ++ nl)
              (map c_content
                 (chunk_rows_of (st_db demo_state) (f_id demo_note_row)))) /\
  (forall k row,
     nth_error (chunk_rows_of (st_db demo_state) (f_id demo_note_row)) k
       = Some row ->
     (Z.of_nat k < 2 ^ 63)%Z ->
     get_file_content (st_db demo_state) (f_id demo_note_row)
       (Some (Z.of_nat k)) = served (c_content row)) /\
  (forall i, (- 2 ^ 63 <= i < 2 ^ 63)%Z ->
     (i < 0 \/ f_chunk_count demo_note_row <= i)%Z ->
     get_file_content (st_db demo_state) (f_id demo_note_row) (Some i)
       = served []) /\
  (forall i, (i < - 2 ^ 63 \/ 2 ^ 63 <= i)%Z ->
     get_file_content (st_db demo_state) (f_id demo_note_row) (Some i)
       = Raise OverflowError).
Proof.
  apply (@stored_document_is_served demo_world demo_manager demo_state
           demo_note_row).
  - exact (reach_upload (lit "2025-01-01T00:00:00") (lit "note.txt")
             None None None (reach_init demo_world demo_manager demo_fs)).
  - left. reflexivity.
Defined.

(* ------------------------------------------------------------------ *)
(** * More on sanitization and on repeated uploads                     *)
(* ------------------------------------------------------------------ *)

(** X28.  A query that is already a list of words of two or more
    characters, none of them special, joined by single spaces, is handed to
    the index unchanged. *)
Theorem clean_search_query_keeps_plain_words (ws : list str)
    (Hne : ws <> [])
    (Hwords : Forall is_word ws)
    (Hlong : Forall (fun w => (2 <= len w)%Z) ws)
    (Hclean : Forall (Forall (fun c => is_clean c = true)) ws) :
  clean_search_query (join (lit " ") ws) = join (lit " ") ws.
Proof.
  assert (Hq : Forall (fun c => is_clean c = true) (join (lit " ") ws)).
  { apply Forall_forall. intros c Hc.
    apply join_chars in Hc as [Hc|[w [Hw Hc]]].
    - destruct Hc as [<-|[]]. reflexivity.
    - rewrite Forall_forall in Hclean. specialize (Hclean w Hw).
      rewrite Forall_forall in Hclean. now apply Hclean. }
  rewrite clean_search_query_unfold, (kept_words_fixed Hq).
  rewrite (split_join Hwords).
  rewrite (filter_all (fun word => (2 <=? len word)%Z) ws).
  - destruct ws; [congruence|reflexivity].
  - rewrite Forall_forall in Hlong. intros w Hw. apply Z.leb_le. now apply Hlong.
Qed.

Lemma clean_search_query_keeps_plain_words_witness :
  clean_search_query (join (lit " ") [lit "annual"; lit "report"]) =
    join (lit " ") [lit "annual"; lit "report"].
Proof.
  apply (@clean_search_query_keeps_plain_words [lit "annual"; lit "report"]).
  - discriminate.
  - apply words_are_words. reflexivity.
  - repeat constructor; discriminate.
  - repeat constructor.
Defined.

(** X29.  Nothing is deduplicated by content: when the same source is
    uploaded twice and both uploads succeed, the files table gains two rows
    with different ids and the same content hash (the source being a file
    other than the first upload's copy). *)
Theorem upload_twice_stores_two_documents (E : World) (self : FileManager)
    (ts1 ts2 : str) (file_path : path) (category : option str)
    (tags : option (list str)) (description : option str)
    (st st1 st2 : state) (info1 info2 : upload_info)
    (Hup1 : upload_file E self ts1 file_path category tags description st
            = (UploadSuccess info1, st1))
    (Hup2 : upload_file E self ts2 file_path category tags description st1
            = (UploadSuccess info2, st2))
    (Hcopy : file_path <> storage_path_of E self ts1 file_path) :
  exists row1 row2,
    files (st_db st2) = files (st_db st) ++ [row1; row2] /\
    f_id row1 = u_file_id info1 /\ f_id row2 = u_file_id info2 /\
    u_file_id info1 <> u_file_id info2 /\
    f_content_hash row1 = f_content_hash row2.
Proof.
  destruct (st_fs st file_path) as [data|] eqn:Hfile;
    [|unfold upload_file in Hup1; rewrite Hfile in Hup1; discriminate].
  pose proof (@upload_file_outcome E self ts1 file_path category tags
                description st data Hfile) as H1.
  cbv zeta in H1. rewrite Hup1 in H1. simpl fst in H1. simpl snd in H1.
  destruct H1 as [Hfs1 [[e [Hbad _]]|[text1 [cs1 [_ [_ [_
                   [Hinfo1 [Hfiles1 _]]]]]]]]]; [discriminate|].
  assert (Hfile1 : st_fs st1 file_path = Some data).
  { rewrite Hfs1. unfold fs_write.
    apply eqb_neq in Hcopy. now rewrite Hcopy. }
  pose proof (@upload_file_outcome E self ts2 file_path category tags
                description st1 data Hfile1) as H2.
  cbv zeta in H2. rewrite Hup2 in H2. simpl fst in H2. simpl snd in H2.
  destruct H2 as [_ [[e [Hbad _]]|[text2 [cs2 [_ [_ [Hfresh2
                   [Hinfo2 [Hfiles2 _]]]]]]]]]; [discriminate|].
  injection Hinfo1 as ->. injection Hinfo2 as ->.
  eexists; eexists. rewrite Hfiles2, Hfiles1, <- app_assoc.
  split; [reflexivity|]. split; [reflexivity|]. split; [reflexivity|].
  split; [|reflexivity].
  cbn [u_file_id]. intros Heq. apply Hfresh2.
  unfold file_ids. rewrite Hfiles1, map_app. apply in_or_app. right.
  simpl. left. exact Heq.
Qed.

Lemma upload_twice_stores_two_documents_witness :
  exists row1 row2,
    files (st_db (snd (upload_file demo_world demo_manager
                         (lit "2025-01-05T00:00:00") (lit "note.txt")
                         None None None demo_state))) =
      files (st_db demo_start) ++ [row1; row2] /\
    f_id row1 = demo_note_id /\
    f_id row2 = lit "note.txt_2025-01-05T00:00:00" /\
    demo_note_id <> lit "note.txt_2025-01-05T00:00:00" /\
    f_content_hash row1 = f_content_hash row2.
Proof.
  apply (@upload_twice_stores_two_documents demo_world demo_manager
           (lit "2025-01-01T00:00:00") (lit "2025-01-05T00:00:00")
           (lit "note.txt") None None None demo_start demo_state
           (snd (upload_file demo_world demo_manager
                   (lit "2025-01-05T00:00:00") (lit "note.txt")
                   None None None demo_state))
           {| u_file_id := demo_note_id; u_filename := lit "note.txt";
              u_file_type := lit "text"; u_chunks := 1 |}
           {| u_file_id := lit "note.txt_2025-01-05T00:00:00";
              u_filename := lit "note.txt";
              u_file_type := lit "text"; u_chunks := 1 |}).
  - reflexivity.
  - reflexivity.
  - discriminate.
Defined.
